(** * Enphase schedule card: a shallow embedding of the card's logic

    The development follows
    [custom_components/enphase_envoy_cloud_control/www/enphase-schedule-card.js].
    The card is a single JavaScript object whose methods mutate
    [this._state], the draft objects it points to and the [days] arrays
    of those drafts.  Objects and arrays live in a store indexed by
    references, so that aliasing between the drafts, the schedules
    published by the host and the payload of a service call is visible.

    Of the shadow tree the model keeps what the logic depends on: whether
    a [_render] went through, and the two draft objects the listeners it
    attached close over.  The markup itself is not modelled. *)

From Stdlib Require Import ZArith QArith String DecimalString.
From stdpp Require Import base gmap list strings sorting.

Local Open Scope string_scope.
Local Open Scope list_scope.
Local Open Scope Z_scope.

(** ** JavaScript numbers

    A JavaScript number is a NaN, an infinity or a finite double; every
    finite double is a rational, and [<] and [>] on finite doubles agree
    with the order of the rationals.  The finite case is therefore kept as
    a rational. *)

Inductive JsNum : Type :=
  | NaN
  | NegInf
  | PosInf
  | Fin (q : Q).

Definition Qltb (p q : Q) : bool :=
  Qnum p * Z.pos (Qden q) <? Qnum q * Z.pos (Qden p).

(** [a < b] on numbers: false as soon as one side is NaN. *)
Definition js_lt (a b : JsNum) : bool :=
  match a, b with
  | NaN, _ | _, NaN => false
  | NegInf, NegInf => false
  | NegInf, _ => true
  | _, NegInf => false
  | PosInf, _ => false
  | Fin _, PosInf => true
  | Fin p, Fin q => Qltb p q
  end.

(** [a > b]. *)
Definition js_gt (a b : JsNum) : bool := js_lt b a.

Definition isNaN (a : JsNum) : bool :=
  match a with NaN => true | _ => false end.

Definition of_Z (z : Z) : JsNum := Fin (inject_Z z).

(** [Number(v)] where [v] already is a number: the fields read through
    [Number] are written by [_emptySchedule] (the literal 0), by the
    change listeners ([Number(event.target.value)]) and copied from the
    numeric [limit] attribute of a schedule. *)
Definition Number (v : JsNum) : JsNum := v.

(** ** Arrays of day codes

    Day codes are integers: the chips pass [Number(data-day)] with
    [data-day] one of 1..7, and schedules list integer weekday codes. *)

(** [xs.indexOf(day)]: position of the first element strictly equal to
    [day], or -1. *)
Fixpoint indexOf (xs : list Z) (day : Z) : Z :=
  match xs with
  | [] => -1
  | x :: r =>
      if x =? day then 0
      else let i := indexOf r day in if i <? 0 then -1 else i + 1
  end.

(** [xs.splice(start, deleteCount)], the array left behind.  A negative
    [start] counts from the end, a [start] past the end is the end. *)
Definition splice (start : Z) (deleteCount : nat) (xs : list Z) : list Z :=
  let len := Z.of_nat (length xs) in
  let s := if start <? 0 then Z.max (len + start) 0 else Z.min start len in
  take (Z.to_nat s) xs ++ drop (Z.to_nat s + deleteCount) xs.

(** [xs.push(day)]. *)
Definition push (xs : list Z) (day : Z) : list Z := xs ++ [day].

(** [xs.sort(cmp)]: a stable sort driven by the sign of [cmp a b]. *)
Fixpoint sort_insert (cmp : Z -> Z -> Z) (x : Z) (ys : list Z) : list Z :=
  match ys with
  | [] => [x]
  | y :: r => if cmp x y <=? 0 then x :: y :: r else y :: sort_insert cmp x r
  end.

Definition sort (cmp : Z -> Z -> Z) (xs : list Z) : list Z :=
  foldr (sort_insert cmp) [] xs.

(** The comparator of [_toggleDay]: [(a, b) => a - b]. *)
Definition by_difference (a b : Z) : Z := a - b.

(** The effect of [_toggleDay] on the contents of [target.days]. *)
Definition toggle_days (xs : list Z) (day : Z) : list Z :=
  let idx := indexOf xs day in
  if 0 <=? idx then splice idx 1 xs
  else sort by_difference (push xs day).

(** ** The store *)

Definition loc := positive.

(** A draft: the object built by [_emptySchedule] or by
    [_onSelectSchedule]. *)
Record Draft : Type := mkDraft {
  schedule_type : string;
  start_time : string;
  end_time : string;
  limit : JsNum;
  days : loc
}.

(** A schedule as published in the [schedules] attribute of the entity. *)
Module Sched.
Record t : Type := mk {
  id : string;
  type : string;
  start : string;
  end_ : string;
  limit : JsNum;
  days : loc
}.
End Sched.

Inductive obj : Type :=
  | OArray (elems : list Z)
  | ODraft (d : Draft)
  | OSched (s : Sched.t).

(** ** The card *)

Record State : Type := mkState {
  selectedId : option string;
  edit : loc;
  add : loc;
  error : string
}.

Record Config : Type := mkConfig {
  entity : string;
  domain : string;
  add_service : string;
  update_service : string;
  delete_service : string
}.

(** The [data] argument of [hass.callService].  [days] is the reference
    held by the draft, not a copy. *)
Inductive ServiceData : Type :=
  | UpdateData (schedule_id schedule_type start_time end_time : string)
               (limit : JsNum) (days : loc) (confirm : bool)
  | DeleteData (schedule_id : string) (confirm : bool)
  | AddData (schedule_type start_time end_time : string)
            (limit : JsNum) (days : loc).

Record Call : Type := mkCall {
  call_domain : string;
  call_service : string;
  call_data : ServiceData
}.

(** How the promise returned by [callService] settles. *)
Inductive GatewayResult : Type :=
  | Fulfilled
  | Rejected (reason : string).

Record Attributes : Type := mkAttributes {
  schedules : option (list loc)   (* [None]: not an array *)
}.

Record Entity : Type := mkEntity {
  attributes : option Attributes
}.

Record Hass : Type := mkHass {
  states : gmap string Entity;
  callService : Call -> GatewayResult
}.

Record Card : Type := mkCard {
  _config : option Config;
  _hass : option Hass;
  _state : State
}.

(** The draft objects the listeners of the shadow tree close over: the
    [edit] and [add] read by the [_render] that attached them. *)
Record Bound : Type := mkBound {
  bound_edit : loc;
  bound_add : loc
}.

(** The card, the store, the service calls issued so far and the shadow
    tree: [None] while nothing was rendered into it. *)
Record World : Type := mkWorld {
  card : Card;
  mem : gmap loc obj;
  calls : list Call;
  shadowRoot : option Bound
}.

(** ** Completions and the method monad

    A method runs on the world and either completes normally or throws
    (a [TypeError] on a missing object); what it wrote before throwing
    stays written. *)

Inductive Completion (A : Type) : Type :=
  | Normal (a : A)
  | Throw.
Arguments Normal {A} a.
Arguments Throw {A}.

Definition M (A : Type) : Type := World -> Completion A * World.

Definition ret {A : Type} (a : A) : M A := fun w => (Normal a, w).

Definition throw {A : Type} : M A := fun w => (Throw, w).

Definition bind {A B : Type} (m : M A) (f : A -> M B) : M B :=
  fun w =>
    match m w with
    | (Normal a, w') => f a w'
    | (Throw, w') => (Throw, w')
    end.

Declare Scope card_scope.
Delimit Scope card_scope with card.
Notation "'let*' x ':=' m 'in' k" := (bind m (fun x => k))
  (at level 10, x name, m at level 100, k at level 200) : card_scope.
Notation "m ';;' k" := (bind m (fun _ => k))
  (at level 100, k at level 200, right associativity) : card_scope.
Local Open Scope card_scope.

(** Reads and writes of [this] and of the store. *)

Definition this_state : M State := fun w => (Normal (_state (card w)), w).

Definition this_hass : M (option Hass) := fun w => (Normal (_hass (card w)), w).

(** [this._config.f]: throws when [this._config] is null. *)
Definition this_config : M Config :=
  fun w =>
    match _config (card w) with
    | Some cfg => (Normal cfg, w)
    | None => (Throw, w)
    end.

Definition put_state (st : State) : M unit :=
  fun w =>
    (Normal tt,
     mkWorld (mkCard (_config (card w)) (_hass (card w)) st) (mem w) (calls w)
             (shadowRoot w)).

Definition set_selectedId (v : option string) : M unit :=
  let* st := this_state in put_state (mkState v (edit st) (add st) (error st)).

Definition set_edit (l : loc) : M unit :=
  let* st := this_state in put_state (mkState (selectedId st) l (add st) (error st)).

Definition set_error (msg : string) : M unit :=
  let* st := this_state in put_state (mkState (selectedId st) (edit st) (add st) msg).

(** An object or array literal: a new reference. *)
Definition new_obj (o : obj) : M loc :=
  fun w =>
    let l := fresh (dom (mem w)) in
    (Normal l, mkWorld (card w) (<[l := o]> (mem w)) (calls w) (shadowRoot w)).

Definition put_obj (l : loc) (o : obj) : M unit :=
  fun w =>
    (Normal tt, mkWorld (card w) (<[l := o]> (mem w)) (calls w) (shadowRoot w)).

(** Reading the fields of a draft. *)
Definition read_draft (l : loc) : M Draft :=
  fun w =>
    match mem w !! l with
    | Some (ODraft d) => (Normal d, w)
    | _ => (Throw, w)
    end.

(** [Array.isArray(x) ? x : undefined]. *)
Definition as_array (l : loc) : M (option (list Z)) :=
  fun w =>
    match mem w !! l with
    | Some (OArray xs) => (Normal (Some xs), w)
    | _ => (Normal None, w)
    end.

(** Using [x] as an array (a method call on it, or spreading it). *)
Definition read_array (l : loc) : M (list Z) :=
  let* a := as_array l in
  match a with
  | Some xs => ret xs
  | None => throw
  end.

(** An in-place array method. *)
Definition array_update (l : loc) (f : list Z -> list Z) : M unit :=
  let* xs := read_array l in put_obj l (OArray (f xs)).

(** Truthiness of a string and of [selectedId] (null or a string). *)
Definition truthy (s : string) : bool := negb (String.eqb s "").

Definition truthy_id (v : option string) : option string :=
  match v with
  | Some s => if truthy s then Some s else None
  | None => None
  end.

(** ** The methods of the card *)

Definition _getSchedules : M (list loc) :=
  fun w =>
    match _hass (card w), _config (card w) with
    | Some hass, Some cfg =>
        match states hass !! entity cfg with
        | Some (mkEntity (Some (mkAttributes (Some l)))) => (Normal l, w)
        | _ => (Normal [], w)
        end
    | _, _ => (Normal [], w)
    end.

(** What the template of [_render] asks of a published schedule:
    [sched.type.toUpperCase()] and [this._daysLabel(sched.days)], that is
    [sched.days.map(...)], throw on anything but a schedule object whose
    days are an array. *)
Definition row_prints (h : gmap loc obj) (l : loc) : bool :=
  match h !! l with
  | Some (OSched s) =>
      match h !! Sched.days s with
      | Some (OArray _) => true
      | _ => false
      end
  | _ => false
  end.

(** What it asks of a draft: its fields, and [draft.days.includes(day)]
    for the seven chips. *)
Definition chips_print (h : gmap loc obj) (l : loc) : bool :=
  match h !! l with
  | Some (ODraft d) =>
      match h !! days d with
      | Some (OArray _) => true
      | _ => false
      end
  | _ => false
  end.

(** The evaluation of the template literal: it only reads, and throws a
    [TypeError] where one of the above fails. *)
Definition template (schedules : list loc) (edit add : loc) : M unit :=
  fun w =>
    if forallb (row_prints (mem w)) schedules
       && chips_print (mem w) edit && chips_print (mem w) add
    then (Normal tt, w)
    else (Throw, w).

(** The assignment to [this.shadowRoot.innerHTML] and the
    [addEventListener] calls that follow it: the old tree and its
    listeners are gone, the new listeners close over [edit] and [add]. *)
Definition attach (edit add : loc) : M unit :=
  fun w =>
    (Normal tt, mkWorld (card w) (mem w) (calls w) (Some (mkBound edit add))).

(** [_render()].  [this.shadowRoot] is set by the constructor and never
    unset.  The template is evaluated before the assignment, so a throw
    leaves the old tree and its listeners in place. *)
Definition _render : M unit :=
  let* config := (fun w => (Normal (_config (card w)), w)) in
  match config with
  | None => ret tt
  | Some _ =>
      let* schedules := _getSchedules in
      let* st := this_state in
      template schedules (edit st) (add st) ;;
      attach (edit st) (add st)
  end.

(** [_emptySchedule(defaultType)]: [defaultType || "cfg"]. *)
Definition _emptySchedule (defaultType : string) : M loc :=
  let* d := new_obj (OArray []) in
  new_obj (ODraft (mkDraft (if truthy defaultType then defaultType else "cfg")
                           "00:00" "00:00" (of_Z 0) d)).

(** The messages returned by [_validate] and set by the handlers. *)
Definition InvalidTimeRange : string := "Start time and end time must differ.".
Definition EmptyDaySelection : string := "Select at least one day.".
Definition LimitOutOfRange : string := "Limit must be between 0 and 100.".
Definition NoSelectionUpdate : string := "Select a schedule to update.".
Definition NoSelectionDelete : string := "Select a schedule to delete.".

Definition _validate (schedule : loc) : M string :=
  let* s := read_draft schedule in
  if String.eqb (start_time s) (end_time s) then ret InvalidTimeRange
  else
    let* a := as_array (days s) in
    match a with
    | None => ret EmptyDaySelection
    | Some xs =>
        if (length xs =? 0)%nat then ret EmptyDaySelection
        else
          let limit := Number (limit s) in
          if isNaN limit || js_lt limit (of_Z 0) || js_gt limit (of_Z 100)
          then ret LimitOutOfRange
          else ret ""
    end.

(** [hass.callService(domain, service, data)]: the call is issued and a
    promise comes back. *)
Definition hass_callService (hass : Hass) (c : Call) : M GatewayResult :=
  fun w =>
    (Normal (callService hass c),
     mkWorld (card w) (mem w) (calls w ++ [c]) (shadowRoot w)).

(** [_serviceCall(service, data)]: the promise is dropped. *)
Definition _serviceCall (service : string) (data : ServiceData) : M unit :=
  let* h := this_hass in
  match h with
  | None => ret tt
  | Some hass =>
      let* cfg := this_config in
      hass_callService hass (mkCall (domain cfg) service data) ;;
      ret tt
  end.

(** [schedules.find((sched) => sched.id === id)]. *)
Fixpoint find_schedule (h : gmap loc obj) (id : string) (ls : list loc)
  : option Sched.t :=
  match ls with
  | [] => None
  | l :: r =>
      match h !! l with
      | Some (OSched s) =>
          if String.eqb (Sched.id s) id then Some s else find_schedule h id r
      | _ => find_schedule h id r
      end
  end.

Definition _onSelectSchedule (id : string) : M unit :=
  let* schedules := _getSchedules in
  let* selected := (fun w => (Normal (find_schedule (mem w) id schedules), w)) in
  match selected with
  | None => ret tt
  | Some selected =>
      set_selectedId (Some id) ;;
      let* elems := read_array (Sched.days selected) in
      let* copy := new_obj (OArray elems) in
      let* e := new_obj (ODraft (mkDraft (Sched.type selected)
                                         (Sched.start selected)
                                         (Sched.end_ selected)
                                         (Sched.limit selected) copy)) in
      set_edit e ;;
      set_error "" ;;
      _render
  end.

Definition _toggleDay (target : loc) (day : Z) : M unit :=
  let* t := read_draft target in
  let* xs := read_array (days t) in
  let idx := indexOf xs day in
  if 0 <=? idx then array_update (days t) (splice idx 1)
  else
    array_update (days t) (fun a => push a day) ;;
    array_update (days t) (sort by_difference).

Definition _handleSave : M unit :=
  let* st := this_state in
  let* error := _validate (edit st) in
  if truthy error then set_error error ;; _render
  else
    let* st := this_state in
    match truthy_id (selectedId st) with
    | None => set_error NoSelectionUpdate ;; _render
    | Some selectedId =>
        set_error "" ;;
        let* cfg := this_config in
        let* e := read_draft (edit st) in
        _serviceCall (update_service cfg)
          (UpdateData selectedId (schedule_type e) (start_time e) (end_time e)
                      (Number (limit e)) (days e) true)
    end.

Definition _handleDelete : M unit :=
  let* st := this_state in
  match truthy_id (selectedId st) with
  | None => set_error NoSelectionDelete ;; _render
  | Some selectedId =>
      set_error "" ;;
      let* cfg := this_config in
      _serviceCall (delete_service cfg) (DeleteData selectedId true)
  end.

Definition _handleAdd : M unit :=
  let* st := this_state in
  let* error := _validate (add st) in
  if truthy error then set_error error ;; _render
  else
    set_error "" ;;
    let* cfg := this_config in
    let* a := read_draft (add st) in
    _serviceCall (add_service cfg)
      (AddData (schedule_type a) (start_time a) (end_time a)
               (Number (limit a)) (days a)).

(** ** Construction and configuration *)

(** [constructor()]: no config, no host connection, two empty drafts. *)
Definition constructor (store : gmap loc obj) : World :=
  let boot := mkWorld (mkCard None None (mkState None 1%positive 1%positive ""))
                      store [] None in
  snd ((let* e := _emptySchedule "cfg" in
        let* a := _emptySchedule "cfg" in
        put_state (mkState None e a "")) boot).

(** The object handed to [setConfig]; [None] is an absent key. *)
Record CardConfig : Type := mkCardConfig {
  cfg_entity : option string;
  cfg_domain : option string;
  cfg_add_service : option string;
  cfg_update_service : option string;
  cfg_delete_service : option string
}.

Definition put_config (cfg : Config) : M unit :=
  fun w =>
    (Normal tt,
     mkWorld (mkCard (Some cfg) (_hass (card w)) (_state (card w)))
             (mem w) (calls w) (shadowRoot w)).

Definition setConfig (config : option CardConfig) : M unit :=
  match config with
  | None => throw
  | Some c =>
      match truthy_id (cfg_entity c) with
      | None => throw
      | Some e =>
          put_config (mkConfig e
            (default "enphase_envoy_cloud_control" (cfg_domain c))
            (default "add_schedule" (cfg_add_service c))
            (default "update_schedule" (cfg_update_service c))
            (default "delete_schedule" (cfg_delete_service c))) ;;
          _render
      end
  end.

(** [set hass(hass)]. *)
Definition set_hass (hass : option Hass) : M unit :=
  (fun w =>
     (Normal tt,
      mkWorld (mkCard (_config (card w)) hass (_state (card w)))
              (mem w) (calls w) (shadowRoot w))) ;;
  _render.

(** ** The listeners attached by [_render]

    The listeners of the fields and of the day chips close over the
    draft objects read by the [_render] that attached them; the
    listeners of the rows and of the buttons call methods of the card,
    which read [this._state] when they run.  While nothing was rendered
    there is no element, so no listener. *)

Inductive Which : Type := EditDraft | AddDraft.

Inductive Event : Type :=
  | RowClick (id : string)
  | TypeChange (which : Which) (value : string)
  | StartChange (which : Which) (value : string)
  | EndChange (which : Which) (value : string)
  | LimitChange (which : Which) (value : JsNum)
  | DayChipClick (which : Which) (day : Z)
  | SaveClick
  | DeleteClick
  | AddClick.

(** The draft object a listener closes over. *)
Definition closed_over (b : Bound) (which : Which) : loc :=
  match which with EditDraft => bound_edit b | AddDraft => bound_add b end.

Definition assign (l : loc) (f : Draft -> Draft) : M unit :=
  let* d := read_draft l in put_obj l (ODraft (f d)).

(** What the listener of a field or of a day chip writes to the draft
    [l] it closes over. *)
Definition write (l : loc) (ev : Event) : M unit :=
  match ev with
  | TypeChange _ v =>
      assign l (fun d => mkDraft v (start_time d) (end_time d) (limit d) (days d))
  | StartChange _ v =>
      assign l (fun d => mkDraft (schedule_type d) v (end_time d) (limit d) (days d))
  | EndChange _ v =>
      assign l (fun d => mkDraft (schedule_type d) (start_time d) v (limit d) (days d))
  | LimitChange _ v =>
      assign l (fun d => mkDraft (schedule_type d) (start_time d) (end_time d)
                                 (Number v) (days d))
  | DayChipClick _ day => _toggleDay l day
  | _ => ret tt
  end.

Definition listener (ev : Event) : M unit :=
  let* tree := (fun w => (Normal (shadowRoot w), w)) in
  match tree with
  | None => ret tt
  | Some b =>
      match ev with
      | RowClick id => _onSelectSchedule id
      | TypeChange which _ | StartChange which _ | EndChange which _
      | LimitChange which _ => write (closed_over b which) ev
      | DayChipClick which _ => write (closed_over b which) ev ;; _render
      | SaveClick => _handleSave
      | DeleteClick => _handleDelete
      | AddClick => _handleAdd
      end
  end.

(** A sequence of events; an uncaught exception in one listener does not
    stop the next event from being delivered. *)
Fixpoint deliver (evs : list Event) (w : World) : World :=
  match evs with
  | [] => w
  | ev :: r => deliver r (snd (listener ev w))
  end.

(** ** What the card exposes for rendering *)

Record DraftView : Type := mkDraftView {
  view_type : string;
  view_start : string;
  view_end : string;
  view_limit : JsNum;
  view_days : option (list Z)
}.

Definition view_draft (h : gmap loc obj) (l : loc) : option DraftView :=
  match h !! l with
  | Some (ODraft d) =>
      Some (mkDraftView (schedule_type d) (start_time d) (end_time d) (limit d)
              (match h !! days d with
               | Some (OArray xs) => Some xs
               | _ => None
               end))
  | _ => None
  end.

Record Snapshot : Type := mkSnapshot {
  snap_edit : option DraftView;
  snap_add : option DraftView;
  snap_selection : option string;
  snap_error : string
}.

Definition snapshot (w : World) : Snapshot :=
  let st := _state (card w) in
  mkSnapshot (view_draft (mem w) (edit st)) (view_draft (mem w) (add st))
             (selectedId st) (error st).

(** ** Reading the spec's words on the model *)

(** The limit as a number between 0 and 100. *)
Definition in_range (n : JsNum) : Prop :=
  match n with
  | Fin q => (0 <= q)%Q ∧ (q <= 100)%Q
  | _ => False
  end.

(** The limit as an integer between 0 and 100. *)
Definition integer_in_range (n : JsNum) : Prop :=
  ∃ z : Z, 0 <= z <= 100 ∧
           match n with Fin q => (q == inject_Z z)%Q | _ => False end.

(** ** Worlds reached by the handlers *)

(** The world with [this._state.error] replaced. *)
Definition with_error (msg : string) (w : World) : World :=
  let st := _state (card w) in
  mkWorld (mkCard (_config (card w)) (_hass (card w))
                  (mkState (selectedId st) (edit st) (add st) msg))
          (mem w) (calls w) (shadowRoot w).

(** The world with one more service call issued. *)
Definition issue (c : Call) (w : World) : World :=
  mkWorld (card w) (mem w) (calls w ++ [c]) (shadowRoot w).

(** The world with another host connection. *)
Definition connect (hass : option Hass) (w : World) : World :=
  mkWorld (mkCard (_config (card w)) hass (_state (card w))) (mem w) (calls w)
          (shadowRoot w).

(** The calls a handler issues once it reaches [_serviceCall]: one when
    the card is connected and configured, none otherwise. *)
Definition issued (w : World) (c : Config -> Call) : list Call :=
  match _hass (card w), _config (card w) with
  | Some _, Some cfg => [c cfg]
  | _, _ => []
  end.

Definition update_call (sid : string) (e : Draft) (cfg : Config) : Call :=
  mkCall (domain cfg) (update_service cfg)
         (UpdateData sid (schedule_type e) (start_time e) (end_time e)
                     (limit e) (days e) true).

Definition delete_call (sid : string) (cfg : Config) : Call :=
  mkCall (domain cfg) (delete_service cfg) (DeleteData sid true).

Definition add_call (a : Draft) (cfg : Config) : Call :=
  mkCall (domain cfg) (add_service cfg)
         (AddData (schedule_type a) (start_time a) (end_time a)
                  (limit a) (days a)).

Definition dispatched (w : World) (c : Config -> Call) : World :=
  mkWorld (card (with_error "" w)) (mem w) (calls w ++ issued w c)
          (shadowRoot w).

(** ** The three operations *)

Inductive Operation : Type := Save | Delete | Add.

Definition handler (op : Operation) : M unit :=
  match op with
  | Save => _handleSave
  | Delete => _handleDelete
  | Add => _handleAdd
  end.

(** The local preconditions of an operation: the draft it sends passes
    [_validate], and a schedule is selected when it needs one. *)
Definition ready (op : Operation) (w : World) : Prop :=
  let st := _state (card w) in
  match op with
  | Save => fst (_validate (edit st) w) = Normal "" ∧
            is_Some (truthy_id (selectedId st))
  | Delete => is_Some (truthy_id (selectedId st))
  | Add => fst (_validate (add st) w) = Normal ""
  end.

(** An error message that carries a reason: the reason occurs in it. *)
Definition mentions (reason msg : string) : bool :=
  match String.index 0 reason msg with
  | Some _ => true
  | None => false
  end.


(** The events that write to the edit draft. *)
Definition edits_draft (ev : Event) : bool :=
  match ev with
  | TypeChange EditDraft _ | StartChange EditDraft _ | EndChange EditDraft _
  | LimitChange EditDraft _ | DayChipClick EditDraft _ => true
  | _ => false
  end.

(** The references [_onSelectSchedule] gives to the copy of the days and
    to the new edit draft. *)
Definition copy_ref (w : World) : loc := fresh (dom (mem w)).

Definition draft_ref (w : World) (elems : list Z) : loc :=
  fresh (dom (<[copy_ref w := OArray elems]> (mem w))).

(** What the listeners of an edit form that close over the draft [t] can
    write to in the store [h]: the draft, and its days array. *)
Definition reach (h : gmap loc obj) (t l : loc) : Prop :=
  ∃ d, h !! t = Some (ODraft d) ∧
       (l = t ∨ (l = days d ∧ ∃ xs, h !! l = Some (OArray xs))).

(** The draft the listeners of the edit form of [w] close over, and its
    days array. *)
Definition previous_draft (w : World) (l : loc) : Prop :=
  ∃ b, shadowRoot w = Some b ∧ reach (mem w) (bound_edit b) l.

(** What holds of a store [h] while the draft copied in world [w] is
    written to: the new draft object has the copy as its days, and every
    object of [w] is still there. *)
Definition copy_kept (w : World) (elems : list Z) (h : gmap loc obj) : Prop :=
  (∃ d, h !! draft_ref w elems = Some (ODraft d) ∧ days d = copy_ref w) ∧
  (∀ l o, mem w !! l = Some o → h !! l = Some o).

(** What holds of a world [w'] while the events of the edit form are
    delivered after the selection made in world [w]: the edit draft is
    the new object, with the copy as its days; the listeners close over
    it or, when [stale], over the draft they closed over in [w]; every
    object of [w] is still there, that draft and its days array excepted
    when [stale]. *)
Definition editing_copy (stale : Prop) (w : World) (elems : list Z)
    (w' : World) : Prop :=
  edit (_state (card w')) = draft_ref w elems ∧
  (∃ d, mem w' !! draft_ref w elems = Some (ODraft d) ∧ days d = copy_ref w) ∧
  (∀ b, shadowRoot w' = Some b →
        bound_edit b = draft_ref w elems ∨ (stale ∧ shadowRoot w = Some b)) ∧
  (∀ l o, mem w !! l = Some o → (stale → ¬ previous_draft w l) →
          mem w' !! l = Some o) ∧
  (∀ b l, stale → shadowRoot w = Some b → reach (mem w') (bound_edit b) l →
          mem w !! l = None ∨ previous_draft w l).

(** ** Concrete cards *)

Definition card_config : option CardConfig :=
  Some (mkCardConfig (Some "sensor.enphase_schedules_summary")
                     None None None None).

(** Two schedules published by the host, with their day arrays. *)
Definition host_store : gmap loc obj :=
  list_to_map
    [(1%positive, OArray [1; 2; 3; 4; 5]);
     (2%positive,
      OSched (Sched.mk "sched-1" "cfg" "08:00" "12:00" (of_Z 50) 1%positive));
     (3%positive, OArray [6; 7]);
     (4%positive,
      OSched (Sched.mk "sched-2" "dtg" "22:00" "06:00" (of_Z 40) 3%positive))].

Definition host (gateway : Call -> GatewayResult) : Hass :=
  mkHass {[ "sensor.enphase_schedules_summary" :=
              mkEntity (Some (mkAttributes (Some [2%positive; 4%positive]))) ]}
         gateway.

(** A card that was constructed, configured and connected. *)
Definition installed (gateway : Call -> GatewayResult) : World :=
  snd ((setConfig card_config ;; set_hass (Some (host gateway)))
         (constructor host_store)).

(** The same card after a click on the row of "sched-1". *)
Definition editing (gateway : Call -> GatewayResult) : World :=
  deliver [RowClick "sched-1"] (installed gateway).

(** A new card over an empty store, configured and not connected. *)
Definition blank_card : World := snd (setConfig card_config (constructor ∅)).

(** That card with a limit of 150 typed into the add form and nothing
    else. *)
Definition overfull_world : World :=
  deliver [LimitChange AddDraft (of_Z 150)] blank_card.

(** That card with an add draft of 08:00 to 00:00 on Mondays at 50.5. *)
Definition fractional_world : World :=
  deliver [StartChange AddDraft "08:00"; DayChipClick AddDraft 1;
           LimitChange AddDraft (Fin (101 # 2))] blank_card.

(** That card with its edit form typed into, with nothing selected. *)
Definition unselected_world : World :=
  deliver [StartChange EditDraft "08:00"; DayChipClick EditDraft 1]
          blank_card.

(** That card with a start time and a limit of 150 typed into the add
    form, and no day. *)
Definition dayless_world : World :=
  deliver [StartChange AddDraft "08:00"; LimitChange AddDraft (of_Z 150)]
          blank_card.







Definition add_days (w : World) : option (list Z) :=
  view_draft (mem w) (add (_state (card w))) ≫= view_days.

Definition edit_days (w : World) : option (list Z) :=
  view_draft (mem w) (edit (_state (card w))) ≫= view_days.

(** The night-time draft typed into the add form. *)
Definition night_events : list Event :=
  [TypeChange AddDraft "dtg"; StartChange AddDraft "22:00";
   EndChange AddDraft "06:00"; LimitChange AddDraft (of_Z 40);
   DayChipClick AddDraft 7; DayChipClick AddDraft 6].

Definition night_world (hass : option Hass) : World :=
  deliver night_events (snd (set_hass hass (installed (fun _ => Fulfilled)))).

Definition default_config : Config :=
  mkConfig "sensor.enphase_schedules_summary" "enphase_envoy_cloud_control"
           "add_schedule" "update_schedule" "delete_schedule".

(** ** Labels of day codes *)

(** The object [names] of [_daysLabel]; a day code is looked up by its
    numeral. *)
Definition names : gmap Z string :=
  list_to_map
    [(1, "Mon"); (2, "Tue"); (3, "Wed"); (4, "Thu"); (5, "Fri");
     (6, "Sat"); (7, "Sun")].

(** An integer a JavaScript number holds exactly and prints digit by
    digit: from 1e21 on numbers print in exponent form, and above 2^53
    not every integer is a number. *)
Definition safe_integer (n : Z) : Prop := Z.abs n < 2 ^ 53.

(** [String(n)] for a safe integer day code: its decimal numeral. *)
Definition numeral (n : Z) : string := NilZero.string_of_int (Z.to_int n).

(** [names[day] || day], as [join] prints it: every name is a non-empty
    string, so the raw code shows exactly when the key is missing. *)
Definition day_token (day : Z) : string := default (numeral day) (names !! day).

(** [days.map((day) => names[day] || day).join(" ")]. *)
Definition _daysLabel (days : list Z) : string :=
  String.concat " " (map day_token days).

(** The part of a joined string after its first piece. *)
Definition joined_rest (pieces : list string) : string :=
  match pieces with
  | [] => ""
  | _ => (" " ++ String.concat " " pieces)%string
  end.

(** A weekday code. *)
Definition weekday (d : Z) : Prop := 1 <= d <= 7.

(** ** The life of a card *)

(** What happens to a card after its construction: the dashboard hands
    it a configuration, the host hands it a connection, the user fires a
    listener. *)
Inductive Action : Type :=
  | SetConfig (config : option CardConfig)
  | SetHass (hass : option Hass)
  | Fire (ev : Event).

Definition perform (a : Action) : M unit :=
  match a with
  | SetConfig config => setConfig config
  | SetHass hass => set_hass hass
  | Fire ev => listener ev
  end.

Fixpoint perform_all (acts : list Action) (w : World) : World :=
  match acts with
  | [] => w
  | a :: r => perform_all r (snd (perform a w))
  end.

(** The draft an event writes to, if any. *)
Definition target_of (ev : Event) : option Which :=
  match ev with
  | TypeChange which _ | StartChange which _ | EndChange which _
  | LimitChange which _ | DayChipClick which _ => Some which
  | _ => None
  end.

Definition slot (which : Which) (w : World) : loc :=
  match which with
  | EditDraft => edit (_state (card w))
  | AddDraft => add (_state (card w))
  end.

Definition other (which : Which) : Which :=
  match which with EditDraft => AddDraft | AddDraft => EditDraft end.

(** The chips rendered by [_render] carry the codes 1 to 7. *)
Definition from_the_chips (a : Action) : Prop :=
  match a with
  | Fire (DayChipClick _ day) => weekday day
  | _ => True
  end.

(** What an action may do to the shadow tree: leave it, or replace it by
    one whose listeners close over the drafts of the card. *)
Definition shadow_step (w w' : World) : Prop :=
  shadowRoot w' = shadowRoot w ∨
  shadowRoot w' =
    Some (mkBound (edit (_state (card w'))) (add (_state (card w')))).

(** The one way an action changes the store and the two draft slots. *)
Inductive effect (w : World) (a : Action) (w' : World) : Prop :=
  | effect_none :
      mem w' = mem w →
      edit (_state (card w')) = edit (_state (card w)) →
      add (_state (card w')) = add (_state (card w)) →
      shadow_step w w' →
      effect w a w'
  | effect_assign (b : Bound) (which : Which) (d d' : Draft) (ev : Event) :
      a = Fire ev →
      target_of ev = Some which →
      shadowRoot w = Some b →
      mem w !! closed_over b which = Some (ODraft d) →
      days d' = days d →
      mem w' = <[closed_over b which := ODraft d']> (mem w) →
      edit (_state (card w')) = edit (_state (card w)) →
      add (_state (card w')) = add (_state (card w)) →
      shadow_step w w' →
      effect w a w'
  | effect_toggle (b : Bound) (which : Which) (d : Draft) (xs : list Z)
                  (day : Z) :
      a = Fire (DayChipClick which day) →
      shadowRoot w = Some b →
      mem w !! closed_over b which = Some (ODraft d) →
      mem w !! days d = Some (OArray xs) →
      mem w' = <[days d := OArray (toggle_days xs day)]> (mem w) →
      edit (_state (card w')) = edit (_state (card w)) →
      add (_state (card w')) = add (_state (card w)) →
      shadow_step w w' →
      effect w a w'
  | effect_select (id : string) (s : Sched.t) (elems : list Z) :
      a = Fire (RowClick id) →
      mem w !! Sched.days s = Some (OArray elems) →
      mem w' =
        <[draft_ref w elems :=
            ODraft (mkDraft (Sched.type s) (Sched.start s) (Sched.end_ s)
                            (Sched.limit s) (copy_ref w))]>
          (<[copy_ref w := OArray elems]> (mem w)) →
      edit (_state (card w')) = draft_ref w elems →
      add (_state (card w')) = add (_state (card w)) →
      shadow_step w w' →
      effect w a w'.

(** Invariants of the store. *)

(** Every array is ascending and without duplicates. *)
Definition arrays_tidy (h : gmap loc obj) : Prop :=
  ∀ l xs, h !! l = Some (OArray xs) → Sorted Z.le xs ∧ NoDup xs.

(** Every array holds weekday codes only. *)
Definition arrays_weekdays (h : gmap loc obj) : Prop :=
  ∀ l xs, h !! l = Some (OArray xs) → Forall weekday xs.

(** Two drafts that are two objects with two arrays. *)
Definition apart (h : gmap loc obj) (l1 l2 : loc) : Prop :=
  l1 ≠ l2 ∧
  ∃ d1 d2 xs1 xs2,
    h !! l1 = Some (ODraft d1) ∧ h !! l2 = Some (ODraft d2) ∧
    h !! days d1 = Some (OArray xs1) ∧ h !! days d2 = Some (OArray xs2) ∧
    days d1 ≠ days d2.

(** The edit draft and the add draft are apart; the listeners of the add
    form close over the add draft, and those of the edit form over a
    draft, the edit draft or an earlier one, that is apart from the add
    draft. *)
Definition separated (w : World) : Prop :=
  apart (mem w) (edit (_state (card w))) (add (_state (card w))) ∧
  ∀ b, shadowRoot w = Some b →
       bound_add b = add (_state (card w)) ∧
       apart (mem w) (bound_edit b) (add (_state (card w))).

(** A request the remote service can take: a selected schedule and the
    confirmation where they are sent, distinct times, a limit from 0 to
    100 and at least one day. *)
Definition well_formed (h : gmap loc obj) (data : ServiceData) : Prop :=
  match data with
  | UpdateData sid _ s e lim dl confirm =>
      sid ≠ "" ∧ confirm = true ∧ s ≠ e ∧ in_range lim ∧
      ∃ xs, h !! dl = Some (OArray xs) ∧ xs ≠ []
  | DeleteData sid confirm => sid ≠ "" ∧ confirm = true
  | AddData _ s e lim dl =>
      s ≠ e ∧ in_range lim ∧ ∃ xs, h !! dl = Some (OArray xs) ∧ xs ≠ []
  end.

(** The list handed out by [_getSchedules]. *)
Definition published (w : World) : list loc :=
  match fst (_getSchedules w) with
  | Normal ls => ls
  | Throw => []
  end.

(** The template of [_render] evaluates without a throw. *)
Definition renders (w : World) : bool :=
  forallb (row_prints (mem w)) (published w)
  && chips_print (mem w) (edit (_state (card w)))
  && chips_print (mem w) (add (_state (card w))).

(** The world with a new shadow tree, its listeners closing over the
    drafts of the card. *)
Definition rebound (w : World) : World :=
  mkWorld (card w) (mem w) (calls w)
          (Some (mkBound (edit (_state (card w))) (add (_state (card w))))).

(** The world [_onSelectSchedule] has built when it calls [_render]: the
    schedule [s], with days [elems], copied into a new edit draft. *)
Definition selected (id : string) (s : Sched.t) (elems : list Z) (w : World)
  : World :=
  mkWorld
    (mkCard (_config (card w)) (_hass (card w))
            (mkState (Some id) (draft_ref w elems) (add (_state (card w))) ""))
    (<[draft_ref w elems :=
         ODraft (mkDraft (Sched.type s) (Sched.start s) (Sched.end_ s)
                         (Sched.limit s) (copy_ref w))]>
       (<[copy_ref w := OArray elems]> (mem w)))
    (calls w) (shadowRoot w).

(** The world [setConfig] has built when it calls [_render]. *)
Definition configured (c : CardConfig) (e : string) (w : World) : World :=
  mkWorld
    (mkCard
       (Some (mkConfig e (default "enphase_envoy_cloud_control" (cfg_domain c))
                (default "add_schedule" (cfg_add_service c))
                (default "update_schedule" (cfg_update_service c))
                (default "delete_schedule" (cfg_delete_service c))))
       (_hass (card w)) (_state (card w)))
    (mem w) (calls w) (shadowRoot w).

(** The writes of a sequence of listeners that close over the draft
    [l]. *)
Fixpoint write_all (l : loc) (evs : list Event) (w : World) : World :=
  match evs with
  | [] => w
  | ev :: r => write_all l r (snd (write l ev w))
  end.

(** The card editing "sched-1" after its end time was set to its start
    time. *)
Definition stale_world : World :=
  deliver [EndChange EditDraft "08:00"] (editing (fun _ => Fulfilled)).

(** A host whose first schedule has an object, not an array, as its days,
    and whose second schedule has the empty string as its id. *)
Definition odd_store : gmap loc obj :=
  list_to_map
    [(1%positive,
      OSched (Sched.mk "sched-4" "cfg" "01:00" "02:00" (of_Z 10) 2%positive));
     (2%positive,
      OSched (Sched.mk "" "dtg" "03:00" "04:00" (of_Z 30) 3%positive));
     (3%positive, OArray [2; 4])].

Definition odd_host : Hass :=
  mkHass {[ "sensor.enphase_schedules_summary" :=
              mkEntity (Some (mkAttributes (Some [1%positive; 2%positive]))) ]}
         (fun _ => Fulfilled).

Definition odd_world : World :=
  snd ((setConfig card_config ;; set_hass (Some odd_host))
         (constructor odd_store)).

(** The service an operation calls under a given card configuration. *)
Definition service_of (op : Operation) (c : CardConfig) : string :=
  match op with
  | Save => default "update_schedule" (cfg_update_service c)
  | Delete => default "delete_schedule" (cfg_delete_service c)
  | Add => default "add_schedule" (cfg_add_service c)
  end.

(** A dashboard configuration that renames the domain and the add
    service. *)
Definition custom_config : CardConfig :=
  mkCardConfig (Some "sensor.enphase_schedules_summary") (Some "enphase_test")
               (Some "create_schedule") None None.

(** The actions that may contact the host: the three buttons. *)
Definition is_operation (a : Action) : bool :=
  match a with
  | Fire SaveClick | Fire DeleteClick | Fire AddClick => true
  | _ => false
  end.

(** What [_emptySchedule("cfg")] shows. *)
Definition empty_view : DraftView :=
  mkDraftView "cfg" "00:00" "00:00" (of_Z 0) (Some []).

(** * Properties *)

(** ** Arrays of day codes *)

Section Arrays.
Implicit Types (xs ys : list Z) (d x : Z).

Lemma indexOf_lower xs d : -1 <= indexOf xs d.
Proof.
  induction xs as [|y r IH]; simpl; [lia|].
  destruct (y =? d); [lia|].
  destruct (indexOf r d <? 0) eqn:E; lia.
Qed.

(** Either the day is absent and the answer is -1, or the answer is the
    length of the longest prefix without it. *)
Lemma indexOf_spec xs d :
  ((d ∉ xs) ∧ indexOf xs d = -1) ∨
  (∃ pre post, xs = pre ++ d :: post ∧ (d ∉ pre) ∧
               indexOf xs d = Z.of_nat (length pre)).
Proof.
  induction xs as [|y r IH]; simpl.
  - left. split; [apply not_elem_of_nil | reflexivity].
  - destruct (Z.eqb_spec y d) as [->|Hne].
    + right. exists [], r. repeat split. apply not_elem_of_nil.
    + destruct IH as [[Hno Hi]|(pre & post & -> & Hno & Hi)].
      * left. rewrite Hi. simpl. split; [|reflexivity].
        rewrite not_elem_of_cons. split; [congruence | exact Hno].
      * right. exists (y :: pre), post. rewrite Hi.
        destruct (Z.ltb_spec (Z.of_nat (length pre)) 0) as [?|_]; [lia|].
        repeat split.
        -- rewrite not_elem_of_cons. split; [congruence | exact Hno].
        -- simpl length. lia.
Qed.

Lemma splice_one_at pre d post :
  splice (Z.of_nat (length pre)) 1 (pre ++ d :: post) = pre ++ post.
Proof.
  unfold splice.
  destruct (Z.ltb_spec (Z.of_nat (length pre)) 0) as [?|_]; [lia|].
  rewrite length_app. simpl length.
  replace (Z.to_nat (Z.min _ _)) with (length pre) by lia.
  rewrite take_app_length.
  replace (length pre + 1)%nat with (length pre + 1 + 0)%nat by lia.
  rewrite <- Nat.add_assoc, drop_app_add. reflexivity.
Qed.

Lemma sort_insert_perm x ys : sort_insert by_difference x ys ≡ₚ x :: ys.
Proof.
  induction ys as [|y r IH]; simpl; [reflexivity|].
  destruct (by_difference x y <=? 0); [reflexivity|].
  rewrite IH. apply Permutation_swap.
Qed.

Lemma sort_perm xs : sort by_difference xs ≡ₚ xs.
Proof.
  induction xs as [|x r IH]; simpl; [reflexivity|].
  rewrite sort_insert_perm, IH. reflexivity.
Qed.

Lemma sort_insert_sorted x ys :
  Sorted Z.le ys → Sorted Z.le (sort_insert by_difference x ys).
Proof.
  unfold by_difference.
  induction ys as [|y r IH]; simpl; intros Hs.
  - repeat constructor.
  - destruct (Z.leb_spec (x - y) 0) as [Hle|Hgt].
    + constructor; [exact Hs|]. constructor. lia.
    + apply Sorted_inv in Hs as [Hr Hhd].
      constructor; [apply IH, Hr|].
      destruct r as [|z r']; simpl.
      * constructor. lia.
      * apply HdRel_inv in Hhd.
        destruct (x - z <=? 0); constructor; lia.
Qed.

Lemma sort_sorted xs : Sorted Z.le (sort by_difference xs).
Proof.
  induction xs as [|x r IH]; simpl; [constructor|].
  apply sort_insert_sorted, IH.
Qed.

(** Removing one element of an ascending array leaves it ascending. *)
Lemma Sorted_le_remove_middle pre d post :
  Sorted Z.le (pre ++ d :: post) → Sorted Z.le (pre ++ post).
Proof.
  intros Hs. apply (Sorted_StronglySorted _) in Hs.
  apply StronglySorted_Sorted.
  apply StronglySorted_app in Hs as (Hcross & Hpre & Hpost).
  apply StronglySorted_app. repeat split.
  - intros a b Ha Hb. apply Hcross; [exact Ha|]. by apply elem_of_cons; right.
  - exact Hpre.
  - by apply StronglySorted_inv in Hpost as [? _].
Qed.

(** What [_toggleDay] leaves in the array. *)
Lemma toggle_days_present pre d post :
  d ∉ pre → toggle_days (pre ++ d :: post) d = pre ++ post.
Proof.
  intros Hno. unfold toggle_days.
  destruct (indexOf_spec (pre ++ d :: post) d)
    as [[Habs _]|(pre' & post' & Heq & Hno' & Hi)].
  - exfalso. apply Habs. rewrite elem_of_app, elem_of_cons. auto.
  - assert (pre' = pre ∧ post' = post) as [-> ->].
    { clear Hi. revert pre' Heq Hno'.
      induction pre as [|a pre IH]; intros [|b pre'] Heq Hno'; simpl in *.
      - by inversion Heq.
      - inversion Heq; subst. exfalso. apply Hno'. by apply elem_of_cons; left.
      - inversion Heq; subst. exfalso. apply Hno. by apply elem_of_cons; left.
      - inversion Heq; subst.
        rewrite not_elem_of_cons in Hno, Hno'.
        destruct (IH (proj2 Hno) pre') as [-> ->]; tauto. }
    rewrite Hi.
    destruct (Z.leb_spec 0 (Z.of_nat (length pre))) as [_|?]; [|lia].
    apply splice_one_at.
Qed.

Lemma toggle_days_absent xs d :
  d ∉ xs → toggle_days xs d = sort by_difference (xs ++ [d]).
Proof.
  intros Hno. unfold toggle_days, push.
  destruct (indexOf_spec xs d) as [[_ ->]|(pre & post & -> & _ & _)].
  - reflexivity.
  - exfalso. apply Hno. rewrite elem_of_app, elem_of_cons. auto.
Qed.

Lemma elem_of_split_first xs d :
  d ∈ xs → ∃ pre post, xs = pre ++ d :: post ∧ d ∉ pre.
Proof.
  intros Hin.
  destruct (indexOf_spec xs d) as [[Hno _]|(pre & post & ? & ? & _)];
    [contradiction | eauto].
Qed.
End Arrays.

(** ** Running the methods *)

Ltac run_unfold :=
  unfold bind, ret, throw, this_state, this_hass, this_config, put_state,
    set_selectedId, set_edit, set_error, put_obj, read_array, as_array,
    read_draft, array_update, hass_callService.

Ltac run := repeat (run_unfold; cbn [fst snd card mem calls shadowRoot _config
                                      _hass _state selectedId edit add error]).

Section ToggleDay.
Variables (w : World) (target : loc) (t : Draft) (xs : list Z).
Hypothesis Htarget : mem w !! target = Some (ODraft t).
Hypothesis Hdays : mem w !! days t = Some (OArray xs).

(** [_toggleDay] rewrites the array of the draft in place and touches
    nothing else. *)
Lemma _toggleDay_run d :
  _toggleDay target d w =
  (Normal tt,
   mkWorld (card w) (<[days t := OArray (toggle_days xs d)]> (mem w)) (calls w)
           (shadowRoot w)).
Proof using Htarget Hdays.
  unfold _toggleDay, toggle_days. run. rewrite Htarget. run. rewrite Hdays.
  destruct (0 <=? indexOf xs d); run.
  - rewrite Hdays. reflexivity.
  - rewrite Hdays. run. rewrite lookup_insert_eq. run.
    rewrite insert_insert_eq.
    reflexivity.
Qed.
End ToggleDay.

Section ToggleFacts.
Implicit Types (xs ys : list Z) (d x : Z).


Lemma toggle_days_NoDup xs d : NoDup xs → NoDup (toggle_days xs d).
Proof.
  intros Hnd. destruct (decide (d ∈ xs)) as [Hin|Hno].
  - destruct (elem_of_split_first xs d Hin) as (pre & post & -> & Hpre).
    rewrite toggle_days_present by exact Hpre.
    apply NoDup_app in Hnd as (Hp & Hcross & Hpost).
    apply NoDup_cons in Hpost as [_ Hpost].
    apply NoDup_app. repeat split; [exact Hp | | exact Hpost].
    intros x Hx Hx'. apply (Hcross x Hx). by apply elem_of_cons; right.
  - rewrite toggle_days_absent by exact Hno.
    rewrite sort_perm. apply NoDup_app. repeat split.
    + exact Hnd.
    + intros x Hx ->%list_elem_of_singleton. tauto.
    + apply NoDup_singleton.
Qed.

Lemma toggle_days_sorted xs d :
  (d ∉ xs) ∨ Sorted Z.le xs → Sorted Z.le (toggle_days xs d).
Proof.
  intros Hor. destruct (decide (d ∈ xs)) as [Hin|Hno].
  - destruct Hor as [?|Hs]; [contradiction|].
    destruct (elem_of_split_first xs d Hin) as (pre & post & -> & Hpre).
    rewrite toggle_days_present by exact Hpre.
    eapply Sorted_le_remove_middle, Hs.
  - rewrite toggle_days_absent by exact Hno. apply sort_sorted.
Qed.


End ToggleFacts.

(** ** Validation *)

Lemma Qltb_lt p q : Qltb p q = true ↔ (p < q)%Q.
Proof. unfold Qltb, Qlt. apply Z.ltb_lt. Qed.

Lemma Qltb_ge p q : Qltb p q = false ↔ (q <= p)%Q.
Proof. unfold Qltb, Qle. apply Z.ltb_ge. Qed.

Lemma limit_check_in_range n :
  isNaN n || js_lt n (of_Z 0) || js_gt n (of_Z 100) = false ↔ in_range n.
Proof.
  destruct n as [| | |q]; simpl; try (split; [discriminate | tauto]).
  unfold js_gt, js_lt, of_Z. rewrite orb_false_iff, !Qltb_ge. reflexivity.
Qed.

Lemma integer_in_range_in_range n : integer_in_range n → in_range n.
Proof.
  intros (z & [Hlo Hhi] & Hn). destruct n as [| | |q]; try contradiction.
  simpl. rewrite Hn. split.
  - change 0%Q with (inject_Z 0). rewrite <- Zle_Qle. exact Hlo.
  - change 100%Q with (inject_Z 100). rewrite <- Zle_Qle. exact Hhi.
Qed.

Section Validate.
Variables (w : World) (l : loc).

(** [_validate] only reads. *)
Lemma _validate_frame : snd (_validate l w) = w.
Proof.
  unfold _validate. run.
  destruct (mem w !! l) as [[| d |]|]; try reflexivity.
  destruct (String.eqb _ _); [reflexivity|]. run.
  destruct (mem w !! days d) as [[xs | |]|]; try reflexivity.
  destruct (length xs =? 0)%nat; [reflexivity|].
  destruct (_ || _ || _); reflexivity.
Qed.

(** Its answer depends on the store alone. *)
Lemma _validate_mem w' :
  mem w' = mem w → fst (_validate l w') = fst (_validate l w).
Proof.
  intros Hm. unfold _validate. run. rewrite Hm.
  destruct (mem w !! l) as [[| d |]|]; try reflexivity.
  destruct (String.eqb _ _); [reflexivity|]. run. rewrite Hm.
  destruct (mem w !! days d) as [[xs | |]|]; try reflexivity.
  destruct (length xs =? 0)%nat; [reflexivity|].
  destruct (_ || _ || _); reflexivity.
Qed.

Lemma _validate_answer msg :
  fst (_validate l w) = Normal msg →
  _validate l w = (Normal msg, w) ∧ ∃ d, mem w !! l = Some (ODraft d).
Proof.
  intros H. split.
  - rewrite (surjective_pairing (_validate l w)), H, _validate_frame.
    reflexivity.
  - revert H. unfold _validate. run.
    destruct (mem w !! l) as [[| d |]|]; try discriminate. eauto.
Qed.

Variable d : Draft.
Hypothesis Hdraft : mem w !! l = Some (ODraft d).

Lemma _validate_no_days :
  start_time d ≠ end_time d →
  (∀ xs, mem w !! days d = Some (OArray xs) → xs = []) →
  _validate l w = (Normal EmptyDaySelection, w).
Proof using Hdraft.
  intros Hne Hxs. unfold _validate. run. rewrite Hdraft.
  apply String.eqb_neq in Hne. rewrite Hne. run.
  destruct (mem w !! days d) as [[xs | |]|]; try reflexivity.
  rewrite (Hxs xs eq_refl). reflexivity.
Qed.

Lemma _validate_limit xs :
  start_time d ≠ end_time d →
  mem w !! days d = Some (OArray xs) → xs ≠ [] →
  _validate l w =
  (Normal (if isNaN (limit d) || js_lt (limit d) (of_Z 0)
              || js_gt (limit d) (of_Z 100)
           then LimitOutOfRange else ""), w).
Proof using Hdraft.
  intros Hne Hxs Hnil. unfold _validate, Number. run. rewrite Hdraft.
  apply String.eqb_neq in Hne. rewrite Hne. run. rewrite Hxs.
  destruct xs as [|x r]; [contradiction|]. simpl.
  destruct (_ || _ || _); reflexivity.
Qed.
End Validate.

(** ** Rendering *)

Lemma _getSchedules_run w : _getSchedules w = (Normal (published w), w).
Proof.
  unfold published, _getSchedules.
  destruct (_hass (card w)) as [hass|], (_config (card w)) as [cfg|];
    try reflexivity.
  destruct (states hass !! entity cfg) as [[[[[ls|]]|]]|]; reflexivity.
Qed.

Lemma _render_run w :
  _render w =
  match _config (card w) with
  | None => (Normal tt, w)
  | Some _ => if renders w then (Normal tt, rebound w) else (Throw, w)
  end.
Proof.
  unfold _render. unfold bind at 1. cbn.
  destruct (_config (card w)) as [cfg|]; [|reflexivity].
  unfold bind at 1. rewrite _getSchedules_run. run.
  unfold template, attach, renders, rebound.
  by destruct (_ && _ && _).
Qed.

(** [_render] writes to the shadow tree only. *)
Lemma _render_world w : snd (_render w) = w ∨ snd (_render w) = rebound w.
Proof.
  rewrite _render_run. destruct (_config (card w)); [|by left].
  destruct (renders w); [by right | by left].
Qed.

Lemma _render_card w : card (snd (_render w)) = card w.
Proof. by destruct (_render_world w) as [-> | ->]. Qed.

Lemma _render_mem w : mem (snd (_render w)) = mem w.
Proof. by destruct (_render_world w) as [-> | ->]. Qed.

Lemma _render_calls w : calls (snd (_render w)) = calls w.
Proof. by destruct (_render_world w) as [-> | ->]. Qed.

Lemma _render_shadow w : shadow_step w (snd (_render w)).
Proof.
  unfold shadow_step. rewrite _render_card.
  destruct (_render_world w) as [-> | ->]; [by left | by right].
Qed.

(** Whether [_render] completes depends on the configuration, the
    connection, the drafts and the store, not on the error, the selection,
    the calls or the shadow tree. *)
Lemma renders_ext w w' :
  _config (card w') = _config (card w) →
  _hass (card w') = _hass (card w) →
  edit (_state (card w')) = edit (_state (card w)) →
  add (_state (card w')) = add (_state (card w)) →
  mem w' = mem w →
  renders w' = renders w.
Proof.
  intros Hc Hh He Ha Hm.
  assert (published w' = published w) as Hp.
  { unfold published, _getSchedules. rewrite Hc, Hh.
    destruct (_hass (card w)) as [h|], (_config (card w)) as [c|];
      try reflexivity.
    destruct (states h !! entity c) as [[[[[ls|]]|]]|]; reflexivity. }
  unfold renders. by rewrite Hp, He, Ha, Hm.
Qed.

(** ** The handlers *)

Ltac open_world w :=
  destruct w as [[[?cfg|] [?hass|] [?sel ?ed ?ad ?err]] ?h ?cs ?tree].

Ltac use_validate H :=
  let Hv := fresh "Hv" in
  let Hd := fresh "Hd" in
  apply _validate_answer in H as [Hv Hd]; cbn in Hv, Hd; run; rewrite Hv.

Section Handlers.
Variable w : World.

Lemma _handleSave_invalid msg :
  fst (_validate (edit (_state (card w))) w) = Normal msg → truthy msg = true →
  _handleSave w = _render (with_error msg w).
Proof.
  intros Hv Ht. unfold _handleSave. use_validate Hv.
  rewrite Ht. reflexivity.
Qed.

Lemma _handleSave_unselected :
  fst (_validate (edit (_state (card w))) w) = Normal "" →
  truthy_id (selectedId (_state (card w))) = None →
  _handleSave w = _render (with_error NoSelectionUpdate w).
Proof.
  intros Hv Hs. unfold _handleSave. use_validate Hv.
  cbn. run. rewrite Hs. reflexivity.
Qed.

Lemma _handleSave_ready sid e :
  fst (_validate (edit (_state (card w))) w) = Normal "" →
  truthy_id (selectedId (_state (card w))) = Some sid →
  mem w !! edit (_state (card w)) = Some (ODraft e) →
  snd (_handleSave w) = dispatched w (update_call sid e) ∧
  (is_Some (_config (card w)) → fst (_handleSave w) = Normal tt).
Proof.
  intros Hv Hs He. unfold _handleSave, _serviceCall, dispatched,
    issued, update_call, with_error, Number.
  use_validate Hv. cbn. run. rewrite Hs. run.
  open_world w; cbn in *; rewrite ?He; cbn; rewrite ?app_nil_r;
    (split; [reflexivity|]); try reflexivity; by intros [? ?].
Qed.

Lemma _handleDelete_unselected :
  truthy_id (selectedId (_state (card w))) = None →
  _handleDelete w = _render (with_error NoSelectionDelete w).
Proof.
  intros Hs. unfold _handleDelete. run. rewrite Hs. reflexivity.
Qed.

Lemma _handleDelete_ready sid :
  truthy_id (selectedId (_state (card w))) = Some sid →
  snd (_handleDelete w) = dispatched w (delete_call sid) ∧
  (is_Some (_config (card w)) → fst (_handleDelete w) = Normal tt).
Proof.
  intros Hs. unfold _handleDelete, _serviceCall, dispatched,
    issued, delete_call, with_error.
  run. rewrite Hs. run.
  open_world w; cbn in *; rewrite ?app_nil_r;
    (split; [reflexivity|]); try reflexivity; by intros [? ?].
Qed.

Lemma _handleAdd_invalid msg :
  fst (_validate (add (_state (card w))) w) = Normal msg → truthy msg = true →
  _handleAdd w = _render (with_error msg w).
Proof.
  intros Hv Ht. unfold _handleAdd. use_validate Hv.
  rewrite Ht. reflexivity.
Qed.

Lemma _handleAdd_ready a :
  fst (_validate (add (_state (card w))) w) = Normal "" →
  mem w !! add (_state (card w)) = Some (ODraft a) →
  snd (_handleAdd w) = dispatched w (add_call a) ∧
  (is_Some (_config (card w)) → fst (_handleAdd w) = Normal tt).
Proof.
  intros Hv Ha. unfold _handleAdd, _serviceCall, dispatched,
    issued, add_call, with_error, Number.
  use_validate Hv. cbn. run.
  open_world w; cbn in *; rewrite ?Ha; cbn; rewrite ?app_nil_r;
    (split; [reflexivity|]); try reflexivity; by intros [? ?].
Qed.
End Handlers.

(** ** C1, C4: validation *)

(** C1: a draft whose start time equals its end time is answered with the
    time-range message, whatever its type, limit and days are. *)
Theorem validate_time_range_first (w : World) (l : loc) (d : Draft) :
  mem w !! l = Some (ODraft d) →
  start_time d = end_time d →
  _validate l w = (Normal InvalidTimeRange, w).
Proof.
  intros Hd Heq. unfold _validate.
  (* the draft is read, then the two times are compared *)
  unfold bind at 1. unfold read_draft. rewrite Hd.
  rewrite Heq, String.eqb_refl.
  reflexivity.
Qed.

Lemma validate_time_range_first_witness :
  add_days overfull_world = Some [] ∧
  _validate (add (_state (card overfull_world))) overfull_world =
  (Normal InvalidTimeRange, overfull_world).
Proof.
  split; [reflexivity|].
  eapply validate_time_range_first; [vm_compute; reflexivity | reflexivity].
Defined.

(** C4, as claimed, fails: 50.5 is not an integer between 0 and 100, the
    draft has distinct times and a day, and [_validate] accepts it. *)
Lemma validate_fractional_limit_counterexample :
  let w := fractional_world in
  let l := add (_state (card w)) in
  (∃ d, mem w !! l = Some (ODraft d) ∧ start_time d ≠ end_time d ∧
        mem w !! days d = Some (OArray [1]) ∧ limit d = Fin (101 # 2)) ∧
  ¬ integer_in_range (Fin (101 # 2)) ∧
  _validate l w = (Normal "", w).
Proof.
  cbv zeta. split; [|split].
  - eexists. split; [vm_compute; reflexivity|]. cbn. repeat split. discriminate.
  - intros (z & _ & Hz). unfold Qeq in Hz. cbn in Hz. lia.
  - vm_compute. reflexivity.
Qed.

(** C4, amended: for a draft with distinct times and at least one day,
    [_validate] answers with the limit message exactly when the limit is
    NaN, below 0 or above 100, and with success exactly when it is a
    number from 0 to 100, integer or not. *)
Theorem validate_limit_range (w : World) (l : loc) (d : Draft) (xs : list Z) :
  mem w !! l = Some (ODraft d) →
  start_time d ≠ end_time d →
  mem w !! days d = Some (OArray xs) →
  xs ≠ [] →
  ∃ msg, _validate l w = (Normal msg, w) ∧
         (msg = LimitOutOfRange ↔ ¬ in_range (limit d)) ∧
         (msg = "" ↔ in_range (limit d)).
Proof.
  intros Hd Hne Hxs Hnil.
  rewrite (_validate_limit w l d Hd xs Hne Hxs Hnil).
  pose proof (limit_check_in_range (limit d)) as Hr.
  destruct (_ || _ || _) eqn:E; eexists; (split; [reflexivity|]).
  - split; split; try discriminate; try tauto.
    + intros _ Hin. apply Hr in Hin. discriminate.
    + intros Hin. apply Hr in Hin. discriminate.
  - split; split; try discriminate; tauto.
Qed.

Lemma validate_limit_range_witness :
  ∃ msg, _validate (add (_state (card fractional_world))) fractional_world =
         (Normal msg, fractional_world) ∧
         (msg = LimitOutOfRange ↔ ¬ in_range (Fin (101 # 2))) ∧
         (msg = "" ↔ in_range (Fin (101 # 2))).
Proof.
  apply (validate_limit_range fractional_world _
           (mkDraft "cfg" "08:00" "00:00" (Fin (101 # 2)) 3%positive) [1]).
  - vm_compute. reflexivity.
  - discriminate.
  - vm_compute. reflexivity.
  - discriminate.
Defined.

(** ** C5, C6: toggling a day *)







(** ** Frame of the handlers *)





Lemma _validate_throw w l :
  fst (_validate l w) = Throw → _validate l w = (Throw, w).
Proof.
  intros H. rewrite (surjective_pairing (_validate l w)), H, _validate_frame.
  reflexivity.
Qed.

Lemma truthy_false msg : truthy msg = false → msg = "".
Proof.
  unfold truthy. intros H. apply negb_false_iff in H.
  by apply String.eqb_eq in H.
Qed.


(** ** C7: no selection *)

(** C7, as claimed, fails for save: on a new card nothing is selected, the
    edit draft has equal times, and save ends with the time-range message,
    not with the message of a missing selection. *)
Lemma save_without_selection_counterexample :
  let w := installed (fun _ => Fulfilled) in
  selectedId (_state (card w)) = None ∧
  error (_state (card (snd (_handleSave w)))) = InvalidTimeRange ∧
  InvalidTimeRange ≠ NoSelectionUpdate.
Proof. cbv zeta. repeat split. discriminate. Qed.

(** C7, amended: with nothing selected, delete sets the error to its
    missing-selection message, issues no call and ends as [_render] ends
    on the world with that message; save issues no call either, and sets
    the error to its missing-selection message when the edit draft passes
    validation, and to the validation message otherwise, again ending as
    [_render] ends.  ([_render] throws when the card is configured and a
    published schedule or a draft cannot be printed; the message is
    written before.) *)
Theorem no_selection_no_call (w : World) :
  selectedId (_state (card w)) = None →
  _handleDelete w = _render (with_error NoSelectionDelete w) ∧
  error (_state (card (snd (_handleDelete w)))) = NoSelectionDelete ∧
  calls (snd (_handleDelete w)) = calls w ∧
  calls (snd (_handleSave w)) = calls w ∧
  (∀ msg, fst (_validate (edit (_state (card w))) w) = Normal msg →
          _handleSave w =
          _render (with_error (if truthy msg then msg else NoSelectionUpdate) w) ∧
          error (_state (card (snd (_handleSave w)))) =
          (if truthy msg then msg else NoSelectionUpdate)).
Proof.
  intros Hsel.
  assert (truthy_id (selectedId (_state (card w))) = None) as Hs
    by (by rewrite Hsel).
  assert (∀ msg, fst (_validate (edit (_state (card w))) w) = Normal msg →
          _handleSave w =
          _render (with_error (if truthy msg then msg else NoSelectionUpdate) w))
    as Hsave.
  { intros msg Hv. destruct (truthy msg) eqn:Ht.
    - by apply _handleSave_invalid.
    - apply truthy_false in Ht as ->. by apply _handleSave_unselected. }
  pose proof (_handleDelete_unselected w Hs) as Hdel.
  split; [exact Hdel|]. split; [by rewrite Hdel, _render_card|].
  split; [by rewrite Hdel, _render_calls|]. split.
  - destruct (fst (_validate (edit (_state (card w))) w)) as [msg|] eqn:Hv.
    + by rewrite (Hsave msg eq_refl), _render_calls.
    + unfold _handleSave. run. by rewrite (_validate_throw _ _ Hv).
  - intros msg Hv. split; [by apply Hsave|].
    by rewrite (Hsave msg Hv), _render_card.
Qed.

Lemma no_selection_no_call_witness :
  let w := unselected_world in
  selectedId (_state (card w)) = None ∧
  _handleDelete w = (Normal tt, with_error NoSelectionDelete w) ∧
  error (_state (card (snd (_handleDelete w)))) = NoSelectionDelete ∧
  calls (snd (_handleSave w)) = calls w ∧
  _handleSave w = (Normal tt, with_error NoSelectionUpdate w).
Proof.
  cbv zeta. split; [reflexivity|].
  destruct (no_selection_no_call unselected_world eq_refl)
    as (Hd & He & _ & Hc & Hs).
  split; [rewrite Hd; vm_compute; reflexivity|].
  split; [exact He|]. split; [exact Hc|].
  destruct (Hs "") as [Hrun _]; [vm_compute; reflexivity|].
  rewrite Hrun. vm_compute. reflexivity.
Defined.

(** ** C8: add *)

(** C8, as claimed, fails: the night-time draft passes validation, yet on
    a card whose host connection is unset add issues no call. *)
Lemma add_unconnected_counterexample :
  let w := night_world None in
  let st := _state (card w) in
  view_draft (mem w) (add st) =
    Some (mkDraftView "dtg" "22:00" "06:00" (of_Z 40) (Some [6; 7])) ∧
  fst (_validate (add st) w) = Normal "" ∧
  calls w = [] ∧
  calls (snd (_handleAdd w)) = [].
Proof. cbv zeta. repeat split. Qed.

(** C8, amended: on a configured card whose host connection is set, add
    on a draft that passes validation issues exactly one call, to the add
    service, carrying the type, start, end, numeric limit and days of the
    draft, and clears the error; on a draft that fails validation it
    issues no call, sets the error to the validation message and ends as
    [_render] ends on the world with that message. *)
Theorem add_dispatches_once
    (w : World) (cfg : Config) (hass : Hass) (a : Draft) (msg : string) :
  _config (card w) = Some cfg →
  _hass (card w) = Some hass →
  mem w !! add (_state (card w)) = Some (ODraft a) →
  fst (_validate (add (_state (card w))) w) = Normal msg →
  (msg = "" →
   _handleAdd w =
   (Normal tt,
    issue (mkCall (domain cfg) (add_service cfg)
             (AddData (schedule_type a) (start_time a) (end_time a)
                      (limit a) (days a)))
          (with_error "" w))) ∧
  (msg ≠ "" →
   _handleAdd w = _render (with_error msg w) ∧
   error (_state (card (snd (_handleAdd w)))) = msg ∧
   calls (snd (_handleAdd w)) = calls w).
Proof.
  intros Hc Hh Ha Hv. split.
  - intros ->. destruct (_handleAdd_ready w a Hv Ha) as [Hw Hn].
    rewrite (surjective_pairing (_handleAdd w)), Hw, Hn by (by rewrite Hc).
    unfold dispatched, issued, issue, add_call. by rewrite Hc, Hh.
  - intros Hne.
    assert (_handleAdd w = _render (with_error msg w)) as Hrun.
    { apply _handleAdd_invalid; [exact Hv|].
      unfold truthy. apply negb_true_iff. by apply String.eqb_neq. }
    split; [exact Hrun|]. by rewrite Hrun, _render_card, _render_calls.
Qed.

Lemma add_dispatches_once_witness :
  let w := night_world (Some (host (fun _ => Fulfilled))) in
  mem w !! 7%positive = Some (OArray [6; 7]) ∧
  _handleAdd w =
  (Normal tt,
   issue (mkCall "enphase_envoy_cloud_control" "add_schedule"
            (AddData "dtg" "22:00" "06:00" (of_Z 40) 7%positive))
         (with_error "" w)) ∧
  calls w = [].
Proof.
  cbv zeta. split; [vm_compute; reflexivity|]. split; [|reflexivity].
  apply (add_dispatches_once
           (night_world (Some (host (fun _ => Fulfilled))))
           default_config (host (fun _ => Fulfilled))
           (mkDraft "dtg" "22:00" "06:00" (of_Z 40) 7%positive) "");
    try (vm_compute; reflexivity).
Defined.

(** ** C10: an unset host connection *)

Lemma ready_dispatched op w :
  ready op w → ∃ c, snd (handler op w) = dispatched w c.
Proof.
  destruct op; simpl.
  - intros [Hv [sid Hs]]. destruct (_validate_answer _ _ _ Hv) as [_ [e He]].
    exists (update_call sid e). by apply _handleSave_ready.
  - intros [sid Hs]. exists (delete_call sid). by apply _handleDelete_ready.
  - intros Hv. destruct (_validate_answer _ _ _ Hv) as [_ [a Ha]].
    exists (add_call a). by apply _handleAdd_ready.
Qed.

Lemma ready_connect op w hass : ready op w → ready op (connect hass w).
Proof.
  destruct op; simpl; [intros [Hv Hs]; split; [|exact Hs] | tauto | intros Hv];
    by rewrite (_validate_mem w _ (connect hass w)).
Qed.

(** C10: on a card whose host connection is unset, save, delete and add
    with their local preconditions satisfied clear the error and issue no
    call; the snapshot they leave is the one the same operation leaves on
    a connected card, where the call is issued. *)
Theorem unconnected_operation_is_silent
    (w : World) (op : Operation) (cfg : Config) (hass : Hass) :
  _hass (card w) = None →
  _config (card w) = Some cfg →
  ready op w →
  error (_state (card (snd (handler op w)))) = "" ∧
  calls (snd (handler op w)) = calls w ∧
  (∃ c, calls (snd (handler op (connect (Some hass) w))) = calls w ++ [c]) ∧
  snapshot (snd (handler op w)) =
  snapshot (snd (handler op (connect (Some hass) w))).
Proof.
  intros Hh Hc Hr.
  destruct (ready_dispatched op w Hr) as [c ->].
  destruct (ready_dispatched op _ (ready_connect op w (Some hass) Hr))
    as [c' ->].
  unfold dispatched, issued, snapshot. cbn. rewrite Hh, Hc, app_nil_r.
  repeat split. by exists (c' cfg).
Qed.

Lemma unconnected_operation_is_silent_witness :
  let w := night_world None in
  let hass := host (fun _ => Rejected "token expired") in
  error (_state (card (snd (handler Add w)))) = "" ∧
  calls (snd (handler Add w)) = calls w ∧
  (∃ c, calls (snd (handler Add (connect (Some hass) w))) = calls w ++ [c]) ∧
  snapshot (snd (handler Add w)) =
  snapshot (snd (handler Add (connect (Some hass) w))).
Proof.
  apply (unconnected_operation_is_silent (night_world None) Add default_config).
  - reflexivity.
  - reflexivity.
  - vm_compute. reflexivity.
Defined.

(** ** C2: a rejected call *)

(** C2, as claimed, fails: the gateway rejects the update with
    "token expired", and after save the error is empty. *)
Lemma rejected_save_counterexample :
  let gateway := fun _ : Call => Rejected "token expired" in
  let w := editing gateway in
  let w' := snd (_handleSave w) in
  (∃ c, calls w' = calls w ++ [c] ∧
        callService (host gateway) c = Rejected "token expired") ∧
  error (_state (card w')) = "" ∧
  mentions "token expired" (error (_state (card w'))) = false.
Proof.
  cbv zeta. split; [|split; reflexivity].
  eexists. split; [vm_compute; reflexivity | reflexivity].
Qed.

(** C2, amended: when the call issued by save or add (or delete) is
    rejected, for whatever reason, the card does not learn of it: the
    error stays cleared, and the drafts, the selection and the store are
    unchanged. *)
Theorem rejected_call_leaves_state
    (w : World) (op : Operation) (cfg : Config) (hass : Hass)
    (reason : string) :
  _config (card w) = Some cfg →
  _hass (card w) = Some hass →
  ready op w →
  (∀ c, callService hass c = Rejected reason) →
  let w' := snd (handler op w) in
  (∃ c, calls w' = calls w ++ [c] ∧ callService hass c = Rejected reason) ∧
  error (_state (card w')) = "" ∧
  selectedId (_state (card w')) = selectedId (_state (card w)) ∧
  edit (_state (card w')) = edit (_state (card w)) ∧
  add (_state (card w')) = add (_state (card w)) ∧
  mem w' = mem w.
Proof.
  intros Hc Hh Hr Hrej. cbv zeta.
  destruct (ready_dispatched op w Hr) as [c ->].
  unfold dispatched, issued. cbn. rewrite Hc, Hh.
  repeat split. by exists (c cfg).
Qed.

Lemma rejected_call_leaves_state_witness :
  let gateway := fun _ : Call => Rejected "token expired" in
  let w := editing gateway in
  let w' := snd (handler Save w) in
  (∃ c, calls w' = calls w ++ [c] ∧
        callService (host gateway) c = Rejected "token expired") ∧
  error (_state (card w')) = "" ∧
  selectedId (_state (card w')) = selectedId (_state (card w)) ∧
  edit (_state (card w')) = edit (_state (card w)) ∧
  add (_state (card w')) = add (_state (card w)) ∧
  mem w' = mem w.
Proof.
  apply (rejected_call_leaves_state
           (editing (fun _ => Rejected "token expired")) Save default_config
           (host (fun _ => Rejected "token expired")) "token expired").
  - reflexivity.
  - reflexivity.
  - split; [vm_compute; reflexivity | by eexists].
  - reflexivity.
Defined.

(** ** C3: a second trigger *)




(** ** Selecting a schedule *)

Lemma find_schedule_Some h id ls s :
  find_schedule h id ls = Some s →
  ∃ l, l ∈ ls ∧ h !! l = Some (OSched s) ∧ Sched.id s = id.
Proof.
  induction ls as [|l r IH]; simpl; [discriminate|].
  intros H.
  assert (find_schedule h id r = Some s → ∃ l0, l0 ∈ l :: r ∧
            h !! l0 = Some (OSched s) ∧ Sched.id s = id) as Hrec.
  { intros Hr. destruct (IH Hr) as (l0 & ? & ? & ?). exists l0.
    split; [by apply elem_of_cons; right | done]. }
  destruct (h !! l) as [[| |s']|] eqn:Hl; try (by apply Hrec).
  destruct (String.eqb_spec (Sched.id s') id) as [Hid|_]; [|by apply Hrec].
  inversion H; subst. exists l. split; [by apply elem_of_cons; left | done].
Qed.

Section Select.
Variables (w : World) (id : string) (ls : list loc) (s : Sched.t)
          (elems : list Z).
Hypothesis Hlist : _getSchedules w = (Normal ls, w).
Hypothesis Hfound : find_schedule (mem w) id ls = Some s.
Hypothesis Hdays : mem w !! Sched.days s = Some (OArray elems).

Lemma copy_ref_fresh : mem w !! copy_ref w = None.
Proof. unfold copy_ref. apply not_elem_of_dom, is_fresh. Qed.

Lemma draft_ref_fresh :
  mem w !! draft_ref w elems = None ∧ draft_ref w elems ≠ copy_ref w.
Proof.
  pose proof (is_fresh (dom (<[copy_ref w := OArray elems]> (mem w)))) as Hf.
  fold (draft_ref w elems) in Hf.
  rewrite dom_insert, elem_of_union, elem_of_singleton in Hf.
  split; [apply not_elem_of_dom | ]; tauto.
Qed.

Lemma _onSelectSchedule_found :
  _onSelectSchedule id w = _render (selected id s elems w).
Proof using Hlist Hfound Hdays.
  unfold _onSelectSchedule. unfold bind at 1. rewrite Hlist.
  unfold bind at 1. rewrite Hfound. unfold new_obj. run. rewrite Hdays.
  reflexivity.
Qed.
End Select.

(** * Further properties of the card *)

(** ** Validation, beyond the claims *)

Lemma _validate_accepts w l d :
  mem w !! l = Some (ODraft d) →
  fst (_validate l w) = Normal "" ↔
  start_time d ≠ end_time d ∧
  (∃ xs, mem w !! days d = Some (OArray xs) ∧ xs ≠ []) ∧
  in_range (limit d).
Proof.
  intros Hd. unfold _validate, Number. run. rewrite Hd.
  destruct (String.eqb_spec (start_time d) (end_time d)) as [Heq|Hne].
  { cbn. split; [discriminate | tauto]. }
  run. destruct (mem w !! days d) as [[xs| |]|] eqn:Hxs; cbn;
    try (split; [discriminate|];
         intros (_ & (ys & Heq & _) & _); discriminate).
  destruct xs as [|x r]; cbn.
  { split; [discriminate|]. intros (_ & (ys & Heq & Hnil) & _).
    inversion Heq. by subst. }
  pose proof (limit_check_in_range (limit d)) as Hr.
  destruct (_ || _ || _); cbn.
  - split; [discriminate|]. intros (_ & _ & Hin). by apply Hr in Hin.
  - split; [|done]. intros _. split; [done|]. split; [by eexists|by apply Hr].
Qed.

(** X1: a draft with distinct times and no day (an empty array, or no
    array at all) is answered with the day message, whatever its limit. *)
Theorem validate_needs_a_day (w : World) (l : loc) (d : Draft) :
  mem w !! l = Some (ODraft d) →
  start_time d ≠ end_time d →
  (∀ xs, mem w !! days d = Some (OArray xs) → xs = []) →
  _validate l w = (Normal EmptyDaySelection, w).
Proof.
  intros Hd Hne Hxs. unfold _validate. run. rewrite Hd.
  apply String.eqb_neq in Hne. rewrite Hne. run.
  destruct (mem w !! days d) as [[xs | |]|]; try reflexivity.
  by rewrite (Hxs xs eq_refl).
Qed.

Lemma validate_needs_a_day_witness :
  let w := dayless_world in
  _validate (add (_state (card w))) w = (Normal EmptyDaySelection, w).
Proof.
  cbv zeta.
  apply (validate_needs_a_day _ _
           (mkDraft "cfg" "08:00" "00:00" (of_Z 150) 3%positive)).
  - vm_compute. reflexivity.
  - discriminate.
  - intros xs Hxs. vm_compute in Hxs. congruence.
Defined.

(** X2: [_validate] answers with success exactly for the drafts with
    distinct times, at least one day and a limit from 0 to 100, and it
    leaves the world as it was. *)
Theorem validate_accepts_exactly (w : World) (l : loc) (d : Draft) :
  mem w !! l = Some (ODraft d) →
  _validate l w = (Normal "", w) ↔
  start_time d ≠ end_time d ∧
  (∃ xs, mem w !! days d = Some (OArray xs) ∧ xs ≠ []) ∧
  in_range (limit d).
Proof.
  intros Hd. rewrite <- (_validate_accepts w l d Hd). split.
  - by intros ->.
  - intros Hv. by apply _validate_answer in Hv as [-> _].
Qed.

Lemma validate_accepts_exactly_witness :
  let w := night_world None in
  _validate (add (_state (card w))) w = (Normal "", w) ↔
  "22:00" ≠ "06:00" ∧
  (∃ xs, mem w !! 7%positive = Some (OArray xs) ∧ xs ≠ []) ∧
  in_range (of_Z 40).
Proof.
  cbv zeta.
  apply (validate_accepts_exactly (night_world None) _
           (mkDraft "dtg" "22:00" "06:00" (of_Z 40) 7%positive)).
  vm_compute. reflexivity.
Defined.

(** ** The handlers, beyond the claims *)

Lemma truthy_id_Some v sid : truthy_id v = Some sid → v = Some sid ∧ sid ≠ "".
Proof.
  destruct v as [s|]; simpl; [|discriminate].
  unfold truthy. destruct (String.eqb_spec s "") as [->|Hne]; simpl;
    [discriminate|]. by intros [= ->].
Qed.

Lemma truthy_id_intro sid : sid ≠ "" → truthy_id (Some sid) = Some sid.
Proof.
  intros Hne. simpl. unfold truthy.
  apply String.eqb_neq in Hne. by rewrite Hne.
Qed.

(** What a handler leaves: the world as it was (the draft could not be
    read), the world with a message, or the world with the error cleared
    and the request, well formed, handed to [_serviceCall]. *)
Lemma handler_outcome op w :
  snd (handler op w) = w ∨
  (∃ msg, msg ≠ "" ∧ snd (handler op w) = snd (_render (with_error msg w))) ∨
  (∃ c, snd (handler op w) = dispatched w c ∧
        ∀ cfg, well_formed (mem w) (call_data (c cfg))).
Proof.
  destruct op; simpl.
  - destruct (fst (_validate (edit (_state (card w))) w)) as [msg|] eqn:Hv.
    + destruct (truthy msg) eqn:Ht.
      * right; left. exists msg. split.
        { intros ->. discriminate. }
        by rewrite (_handleSave_invalid w msg Hv Ht).
      * apply truthy_false in Ht as ->.
        destruct (truthy_id (selectedId (_state (card w)))) as [sid|] eqn:Hs.
        -- destruct (_validate_answer _ _ _ Hv) as [_ [e He]].
           destruct (_handleSave_ready w sid e Hv Hs He) as [Hw _].
           right; right. exists (update_call sid e). split; [exact Hw|].
           intros cfg. cbn.
           pose proof (proj1 (_validate_accepts _ _ _ He) Hv) as (H1 & H2 & H3).
           apply truthy_id_Some in Hs as [_ Hsid]. done.
        -- right; left. exists NoSelectionUpdate. split; [discriminate|].
           by rewrite (_handleSave_unselected w Hv Hs).
    + left. unfold _handleSave. run. by rewrite (_validate_throw _ _ Hv).
  - destruct (truthy_id (selectedId (_state (card w)))) as [sid|] eqn:Hs.
    + destruct (_handleDelete_ready w sid Hs) as [Hw _].
      right; right. exists (delete_call sid). split; [exact Hw|].
      intros cfg. cbn. by apply truthy_id_Some in Hs as [_ ?].
    + right; left. exists NoSelectionDelete. split; [discriminate|].
      by rewrite (_handleDelete_unselected w Hs).
  - destruct (fst (_validate (add (_state (card w))) w)) as [msg|] eqn:Hv.
    + destruct (truthy msg) eqn:Ht.
      * right; left. exists msg. split.
        { intros ->. discriminate. }
        by rewrite (_handleAdd_invalid w msg Hv Ht).
      * apply truthy_false in Ht as ->.
        destruct (_validate_answer _ _ _ Hv) as [_ [a Ha]].
        destruct (_handleAdd_ready w a Hv Ha) as [Hw _].
        right; right. exists (add_call a). split; [exact Hw|].
        intros cfg. cbn.
        pose proof (proj1 (_validate_accepts _ _ _ Ha) Hv) as (H1 & H2 & H3).
        done.
    + left. unfold _handleAdd. run. by rewrite (_validate_throw _ _ Hv).
Qed.

(** X3: on a configured and connected card with a schedule selected and
    an edit draft that passes validation, save issues exactly one call,
    to the update service, carrying the selected id, the fields of the
    draft and the confirmation, and clears the error. *)
Theorem save_dispatches_once
    (w : World) (cfg : Config) (hass : Hass) (e : Draft) (sid : string) :
  _config (card w) = Some cfg →
  _hass (card w) = Some hass →
  mem w !! edit (_state (card w)) = Some (ODraft e) →
  fst (_validate (edit (_state (card w))) w) = Normal "" →
  selectedId (_state (card w)) = Some sid →
  sid ≠ "" →
  _handleSave w =
  (Normal tt,
   issue (mkCall (domain cfg) (update_service cfg)
            (UpdateData sid (schedule_type e) (start_time e) (end_time e)
                        (limit e) (days e) true))
         (with_error "" w)).
Proof.
  intros Hc Hh He Hv Hsel Hne.
  assert (truthy_id (selectedId (_state (card w))) = Some sid) as Hs
    by (rewrite Hsel; by apply truthy_id_intro).
  destruct (_handleSave_ready w sid e Hv Hs He) as [Hw Hn].
  rewrite (surjective_pairing (_handleSave w)), Hw, Hn by (by rewrite Hc).
  unfold dispatched, issued, issue, update_call. by rewrite Hc, Hh.
Qed.

Lemma save_dispatches_once_witness :
  let w := editing (fun _ => Fulfilled) in
  _handleSave w =
  (Normal tt,
   issue (mkCall "enphase_envoy_cloud_control" "update_schedule"
            (UpdateData "sched-1" "cfg" "08:00" "12:00" (of_Z 50)
                        9%positive true))
         (with_error "" w)) ∧
  mem w !! 9%positive = Some (OArray [1; 2; 3; 4; 5]).
Proof.
  cbv zeta. split; [|vm_compute; reflexivity].
  apply (save_dispatches_once (editing (fun _ => Fulfilled)) default_config
           (host (fun _ => Fulfilled))
           (mkDraft "cfg" "08:00" "12:00" (of_Z 50) 9%positive) "sched-1");
    try (vm_compute; reflexivity).
  discriminate.
Defined.

(** X4: delete never looks at the edit draft.  On a configured and
    connected card with a schedule selected it issues exactly one call,
    to the delete service, carrying the selected id and the
    confirmation, and clears the error, also when the draft on screen
    would not pass validation. *)
Theorem delete_dispatches_once
    (w : World) (cfg : Config) (hass : Hass) (sid : string) :
  _config (card w) = Some cfg →
  _hass (card w) = Some hass →
  selectedId (_state (card w)) = Some sid →
  sid ≠ "" →
  _handleDelete w =
  (Normal tt,
   issue (mkCall (domain cfg) (delete_service cfg) (DeleteData sid true))
         (with_error "" w)).
Proof.
  intros Hc Hh Hsel Hne.
  assert (truthy_id (selectedId (_state (card w))) = Some sid) as Hs
    by (rewrite Hsel; by apply truthy_id_intro).
  destruct (_handleDelete_ready w sid Hs) as [Hw Hn].
  rewrite (surjective_pairing (_handleDelete w)), Hw, Hn by (by rewrite Hc).
  unfold dispatched, issued, issue, delete_call. by rewrite Hc, Hh.
Qed.

Lemma delete_dispatches_once_witness :
  let w := stale_world in
  fst (_validate (edit (_state (card w))) w) = Normal InvalidTimeRange ∧
  _handleDelete w =
  (Normal tt,
   issue (mkCall "enphase_envoy_cloud_control" "delete_schedule"
            (DeleteData "sched-1" true))
         (with_error "" w)).
Proof.
  cbv zeta. split; [vm_compute; reflexivity|].
  apply (delete_dispatches_once stale_world default_config
           (host (fun _ => Fulfilled)) "sched-1");
    try (vm_compute; reflexivity).
  discriminate.
Defined.

(** X5: whatever its outcome, a handler leaves the store, both drafts,
    the selection, the configuration and the connection as they were,
    keeps the calls issued before and adds at most one. *)
Theorem handler_frame (op : Operation) (w : World) :
  let w' := snd (handler op w) in
  mem w' = mem w ∧
  selectedId (_state (card w')) = selectedId (_state (card w)) ∧
  edit (_state (card w')) = edit (_state (card w)) ∧
  add (_state (card w')) = add (_state (card w)) ∧
  _config (card w') = _config (card w) ∧
  _hass (card w') = _hass (card w) ∧
  ∃ cs, calls w' = calls w ++ cs ∧ (length cs <= 1)%nat.
Proof.
  cbv zeta.
  destruct (handler_outcome op w) as [->|[(msg & _ & ->)|(c & -> & _)]].
  - repeat split. exists []. rewrite app_nil_r. split; [done | simpl; lia].
  - rewrite _render_mem, _render_card, _render_calls.
    repeat split. exists []. rewrite app_nil_r. split; [done | simpl; lia].
  - repeat split. exists (issued w c). split; [done|].
    unfold issued. destruct (_hass (card w)), (_config (card w)); simpl; lia.
Qed.

(** X6: every request a handler issues is well formed in the store it
    was issued from: save and add never send equal times, an empty day
    list or a limit outside 0..100, and save and delete never send an
    empty schedule id or omit the confirmation. *)
Theorem issued_requests_are_well_formed
    (op : Operation) (w : World) (c : Call) :
  c ∈ calls (snd (handler op w)) →
  c ∈ calls w ∨ well_formed (mem w) (call_data c).
Proof.
  destruct (handler_outcome op w) as [->|[(msg & _ & ->)|(k & -> & Hwf)]].
  - by left.
  - rewrite _render_calls. by left.
  - unfold dispatched, issued. cbn.
    destruct (_hass (card w)), (_config (card w)) as [cfg|];
      rewrite ?app_nil_r; try by left.
    rewrite elem_of_app, list_elem_of_singleton. intros [?| ->]; [by left|].
    right. apply Hwf.
Qed.

Lemma issued_requests_are_well_formed_witness :
  let w := night_world (Some (host (fun _ => Fulfilled))) in
  let c := mkCall "enphase_envoy_cloud_control" "add_schedule"
             (AddData "dtg" "22:00" "06:00" (of_Z 40) 7%positive) in
  c ∈ calls w ∨ well_formed (mem w) (call_data c).
Proof.
  cbv zeta.
  apply (issued_requests_are_well_formed Add
           (night_world (Some (host (fun _ => Fulfilled))))).
  vm_compute. apply list_elem_of_here.
Defined.

(** ** Selecting a schedule, beyond the claims *)

Lemma find_schedule_None h id ls :
  (∀ l s, l ∈ ls → h !! l = Some (OSched s) → Sched.id s ≠ id) →
  find_schedule h id ls = None.
Proof.
  induction ls as [|l r IH]; intros Hno; simpl; [reflexivity|].
  assert (find_schedule h id r = None) as Hr.
  { apply IH. intros l' s' Hin. apply Hno. by apply elem_of_cons; right. }
  destruct (h !! l) as [[| |s]|] eqn:Hl; try exact Hr.
  destruct (String.eqb_spec (Sched.id s) id) as [Hid|_]; [|exact Hr].
  exfalso. apply (Hno l s); [by apply elem_of_cons; left | done | done].
Qed.

Lemma find_schedule_first h id pre l post s :
  (∀ l' s', l' ∈ pre → h !! l' = Some (OSched s') → Sched.id s' ≠ id) →
  h !! l = Some (OSched s) → Sched.id s = id →
  find_schedule h id (pre ++ l :: post) = Some s.
Proof.
  intros Hpre Hl Hid. induction pre as [|p r IH]; simpl.
  - rewrite Hl. apply String.eqb_eq in Hid. by rewrite Hid.
  - assert (find_schedule h id (r ++ l :: post) = Some s) as Hr.
    { apply IH. intros l' s' Hin. apply Hpre. by apply elem_of_cons; right. }
    destruct (h !! p) as [[| |s']|] eqn:Hp; try exact Hr.
    destruct (String.eqb_spec (Sched.id s') id) as [Hid'|_]; [|exact Hr].
    exfalso. apply (Hpre p s'); [by apply elem_of_cons; left | done | done].
Qed.

Lemma _onSelectSchedule_missing w id :
  find_schedule (mem w) id (published w) = None →
  _onSelectSchedule id w = (Normal tt, w).
Proof.
  intros Hf. unfold _onSelectSchedule. unfold bind at 1.
  rewrite _getSchedules_run. unfold bind at 1. by rewrite Hf.
Qed.

(** A selection that finds its schedule and copies its days ends with
    [_render]. *)
Lemma _onSelectSchedule_selected w id s elems :
  find_schedule (mem w) id (published w) = Some s →
  mem w !! Sched.days s = Some (OArray elems) →
  _onSelectSchedule id w = _render (selected id s elems w).
Proof.
  intros Hf Hd.
  by apply (_onSelectSchedule_found w id (published w) s elems
              (_getSchedules_run w)).
Qed.

(** [_render] leaves the card, the store and the calls of the selection,
    and the listeners as they were or bound to the new drafts. *)
Lemma _onSelectSchedule_world w id s elems :
  find_schedule (mem w) id (published w) = Some s →
  mem w !! Sched.days s = Some (OArray elems) →
  snd (_onSelectSchedule id w) = selected id s elems w ∨
  snd (_onSelectSchedule id w) = rebound (selected id s elems w).
Proof.
  intros Hf Hd. rewrite (_onSelectSchedule_selected w id s elems Hf Hd).
  apply _render_world.
Qed.

(** X7: a click on a row whose id no published schedule carries changes
    nothing: the selection, both drafts, the error and the calls stay as
    they were. *)
Theorem select_unknown_id (w : World) (id : string) :
  (∀ l s, l ∈ published w → mem w !! l = Some (OSched s) → Sched.id s ≠ id) →
  _onSelectSchedule id w = (Normal tt, w).
Proof.
  intros Hno. apply _onSelectSchedule_missing.
  by apply find_schedule_None.
Qed.

Lemma select_unknown_id_witness :
  let w := editing (fun _ => Fulfilled) in
  _onSelectSchedule "sched-3" w = (Normal tt, w).
Proof.
  cbv zeta. apply (select_unknown_id (editing (fun _ => Fulfilled)) "sched-3").
  intros l s Hin Hl.
  change (published (editing (fun _ => Fulfilled)))
    with [2%positive; 4%positive] in Hin.
  apply elem_of_cons in Hin as [->|Hin];
    [|apply elem_of_cons in Hin as [->|Hin]; [|by apply elem_of_nil in Hin]];
    vm_compute in Hl; inversion Hl; discriminate.
Defined.

(** X8: [_getSchedules] never throws and never writes; it hands out a
    non-empty list only when the card is connected and configured and the
    configured entity exists, has attributes and lists its schedules in an
    array. *)
Theorem getSchedules_needs_everything (w : World) :
  _getSchedules w = (Normal (published w), w) ∧
  (published w ≠ [] →
   ∃ hass cfg,
     _hass (card w) = Some hass ∧ _config (card w) = Some cfg ∧
     states hass !! entity cfg =
       Some (mkEntity (Some (mkAttributes (Some (published w)))))).
Proof.
  split; [apply _getSchedules_run|].
  unfold published, _getSchedules.
  destruct (_hass (card w)) as [hass|], (_config (card w)) as [cfg|];
    try done.
  destruct (states hass !! entity cfg) as [[[[[ls|]]|]]|] eqn:He; try done.
  intros _. by exists hass, cfg.
Qed.

(** X9: a click on a row selects the first published schedule with that
    id: the selection becomes the id, the error is cleared, the edit
    draft shows the type, times, limit and days of that schedule, the add
    draft slot is the same, and no call is issued.  The click ends as
    [_render] ends on the world so written: normally on a card that is
    not configured or whose schedules and drafts can all be printed, and
    with an exception otherwise. *)
Theorem select_takes_first_match
    (w : World) (id : string) (pre post : list loc) (l : loc)
    (s : Sched.t) (elems : list Z) :
  published w = pre ++ l :: post →
  (∀ l' s', l' ∈ pre → mem w !! l' = Some (OSched s') → Sched.id s' ≠ id) →
  mem w !! l = Some (OSched s) →
  Sched.id s = id →
  mem w !! Sched.days s = Some (OArray elems) →
  let w1 := snd (_onSelectSchedule id w) in
  _onSelectSchedule id w = _render (selected id s elems w) ∧
  (fst (_onSelectSchedule id w) = Normal tt ↔
   _config (card w) = None ∨ renders (selected id s elems w) = true) ∧
  selectedId (_state (card w1)) = Some id ∧
  error (_state (card w1)) = "" ∧
  view_draft (mem w1) (edit (_state (card w1))) =
    Some (mkDraftView (Sched.type s) (Sched.start s) (Sched.end_ s)
                      (Sched.limit s) (Some elems)) ∧
  add (_state (card w1)) = add (_state (card w)) ∧
  calls w1 = calls w.
Proof.
  intros Hpub Hpre Hl Hid Hd. cbv zeta.
  assert (find_schedule (mem w) id (published w) = Some s) as Hf
    by (rewrite Hpub; by apply find_schedule_first).
  pose proof (_onSelectSchedule_selected w id s elems Hf Hd) as Hrun.
  split; [exact Hrun|]. rewrite Hrun. split.
  - rewrite _render_run.
    change (_config (card (selected id s elems w))) with (_config (card w)).
    destruct (_config (card w)) as [cfg|]; [|by split; [left|]].
    destruct (renders (selected id s elems w)); simpl.
    + by split; [right|].
    + split; [discriminate|]. by intros [?|?].
  - rewrite _render_card, _render_mem, _render_calls. unfold selected. cbn.
    repeat split.
    unfold view_draft. rewrite lookup_insert_eq. cbn.
    destruct (draft_ref_fresh w elems) as [_ Hne].
    rewrite lookup_insert_ne by (intros E; by apply Hne).
    by rewrite lookup_insert_eq.
Qed.

Lemma select_takes_first_match_witness :
  let w := installed (fun _ => Fulfilled) in
  let w1 := snd (_onSelectSchedule "sched-2" w) in
  fst (_onSelectSchedule "sched-2" w) = Normal tt ∧
  selectedId (_state (card w1)) = Some "sched-2" ∧
  error (_state (card w1)) = "" ∧
  view_draft (mem w1) (edit (_state (card w1))) =
    Some (mkDraftView "dtg" "22:00" "06:00" (of_Z 40) (Some [6; 7])) ∧
  add (_state (card w1)) = add (_state (card w)) ∧
  calls w1 = calls w.
Proof.
  cbv zeta.
  destruct (select_takes_first_match (installed (fun _ => Fulfilled))
              "sched-2" [2%positive] [] 4%positive
              (Sched.mk "sched-2" "dtg" "22:00" "06:00" (of_Z 40) 3%positive)
              [6; 7]) as (_ & Hends & Hrest); try (vm_compute; reflexivity).
  - intros l' s' Hin Hl. apply list_elem_of_singleton in Hin as ->.
    vm_compute in Hl. inversion Hl. discriminate.
  - split; [|exact Hrest]. apply Hends. right. vm_compute. reflexivity.
Defined.

Lemma select_shape_throw w id s :
  find_schedule (mem w) id (published w) = Some s →
  (∀ xs, mem w !! Sched.days s ≠ Some (OArray xs)) →
  _onSelectSchedule id w =
  (Throw,
   mkWorld
     (mkCard (_config (card w)) (_hass (card w))
             (mkState (Some id) (edit (_state (card w)))
                      (add (_state (card w))) (error (_state (card w)))))
     (mem w) (calls w) (shadowRoot w)).
Proof.
  intros Hf Hno. unfold _onSelectSchedule. unfold bind at 1.
  rewrite _getSchedules_run. unfold bind at 1. rewrite Hf. run.
  destruct (mem w !! Sched.days s) as [[xs| |]|] eqn:Hd; try reflexivity.
  by destruct (Hno xs).
Qed.



(** X11: selecting a schedule and saving at once sends the schedule
    back as it was published: one update call with its id, type, times
    and limit, and a days array that holds its days, provided the
    schedule itself is one [_validate] accepts and its id is not empty. *)
Theorem select_then_save_resends
    (w : World) (cfg : Config) (hass : Hass) (id : string)
    (s : Sched.t) (elems : list Z) :
  _config (card w) = Some cfg →
  _hass (card w) = Some hass →
  find_schedule (mem w) id (published w) = Some s →
  mem w !! Sched.days s = Some (OArray elems) →
  id ≠ "" →
  Sched.start s ≠ Sched.end_ s →
  elems ≠ [] →
  in_range (Sched.limit s) →
  let w1 := snd (_onSelectSchedule id w) in
  _handleSave w1 =
  (Normal tt,
   issue (mkCall (domain cfg) (update_service cfg)
            (UpdateData id (Sched.type s) (Sched.start s) (Sched.end_ s)
                        (Sched.limit s) (copy_ref w) true))
         w1) ∧
  mem w1 !! copy_ref w = Some (OArray elems).
Proof.
  intros Hc Hh Hf Hd Hid Hne Hnil Hr. cbv zeta.
  set (w1 := snd (_onSelectSchedule id w)).
  assert (card w1 = card (selected id s elems w) ∧
          mem w1 = mem (selected id s elems w)) as [Hcard Hmem].
  { subst w1. rewrite (_onSelectSchedule_selected w id s elems Hf Hd).
    by rewrite _render_card, _render_mem. }
  unfold selected in Hcard, Hmem. cbn in Hcard, Hmem.
  destruct (draft_ref_fresh w elems) as [_ Hfresh].
  assert (mem w1 !! copy_ref w = Some (OArray elems)) as Hcopy.
  { rewrite Hmem. rewrite lookup_insert_ne by (intros E; by apply Hfresh).
    by rewrite lookup_insert_eq. }
  assert (mem w1 !! edit (_state (card w1)) =
          Some (ODraft (mkDraft (Sched.type s) (Sched.start s) (Sched.end_ s)
                                (Sched.limit s) (copy_ref w)))) as He.
  { rewrite Hmem, Hcard. cbn. by rewrite lookup_insert_eq. }
  split; [|exact Hcopy].
  assert (fst (_validate (edit (_state (card w1))) w1) = Normal "") as Hv.
  { apply (_validate_accepts _ _ _ He). cbn. split; [done|]. split; [|done].
    by exists elems. }
  assert (truthy_id (selectedId (_state (card w1))) = Some id) as Hsel.
  { rewrite Hcard. cbn [selectedId _state]. by apply truthy_id_intro. }
  destruct (_handleSave_ready w1 id _ Hv Hsel He) as [Hw Hn].
  rewrite (surjective_pairing (_handleSave w1)), Hw, Hn
    by (rewrite Hcard; cbn; by rewrite Hc).
  unfold dispatched, issued, issue, update_call, with_error.
  rewrite Hcard. cbn. rewrite Hc, Hh. cbn. f_equal.
Qed.

Lemma select_then_save_resends_witness :
  let w := installed (fun _ => Fulfilled) in
  let w1 := snd (_onSelectSchedule "sched-2" w) in
  _handleSave w1 =
  (Normal tt,
   issue (mkCall "enphase_envoy_cloud_control" "update_schedule"
            (UpdateData "sched-2" "dtg" "22:00" "06:00" (of_Z 40)
                        (copy_ref w) true))
         w1) ∧
  mem w1 !! copy_ref w = Some (OArray [6; 7]).
Proof.
  apply (select_then_save_resends (installed (fun _ => Fulfilled))
           default_config (host (fun _ => Fulfilled)) "sched-2"
           (Sched.mk "sched-2" "dtg" "22:00" "06:00" (of_Z 40) 3%positive)
           [6; 7]); try (vm_compute; reflexivity); try discriminate.
  split; discriminate.
Defined.

Lemma _handleSave_unselected_calls w :
  truthy_id (selectedId (_state (card w))) = None →
  calls (snd (_handleSave w)) = calls w.
Proof.
  intros Hs.
  destruct (fst (_validate (edit (_state (card w))) w)) as [msg|] eqn:Hv.
  - destruct (truthy msg) eqn:Ht.
    + by rewrite (_handleSave_invalid w msg Hv Ht), _render_calls.
    + apply truthy_false in Ht as ->.
      by rewrite (_handleSave_unselected w Hv Hs), _render_calls.
  - unfold _handleSave. run. by rewrite (_validate_throw _ _ Hv).
Qed.

(** X12: a published schedule whose id is the empty string can be
    selected, but not operated on: after the click the selection is the
    empty string, delete sets the error to its missing-selection message
    and ends as [_render] ends on the world with that message, and
    neither delete nor save issues a call. *)
Theorem empty_id_is_no_selection
    (w : World) (s : Sched.t) (elems : list Z) :
  find_schedule (mem w) "" (published w) = Some s →
  mem w !! Sched.days s = Some (OArray elems) →
  let w1 := snd (_onSelectSchedule "" w) in
  selectedId (_state (card w1)) = Some "" ∧
  _handleDelete w1 = _render (with_error NoSelectionDelete w1) ∧
  error (_state (card (snd (_handleDelete w1)))) = NoSelectionDelete ∧
  calls (snd (_handleDelete w1)) = calls w ∧
  calls (snd (_handleSave w1)) = calls w.
Proof.
  intros Hf Hd. cbv zeta.
  set (w1 := snd (_onSelectSchedule "" w)).
  assert (card w1 = card (selected "" s elems w) ∧ calls w1 = calls w)
    as [Hcard Hcalls].
  { subst w1. rewrite (_onSelectSchedule_selected w "" s elems Hf Hd).
    by rewrite _render_card, _render_calls. }
  assert (truthy_id (selectedId (_state (card w1))) = None) as Hs
    by (by rewrite Hcard).
  pose proof (_handleDelete_unselected w1 Hs) as Hdel.
  split; [by rewrite Hcard|]. split; [exact Hdel|].
  split; [by rewrite Hdel, _render_card|].
  split; [by rewrite Hdel, _render_calls|].
  by rewrite (_handleSave_unselected_calls w1 Hs).
Qed.

Lemma empty_id_is_no_selection_witness :
  let w := odd_world in
  let w1 := snd (_onSelectSchedule "" w) in
  selectedId (_state (card w1)) = Some "" ∧
  _handleDelete w1 = _render (with_error NoSelectionDelete w1) ∧
  error (_state (card (snd (_handleDelete w1)))) = NoSelectionDelete ∧
  calls (snd (_handleDelete w1)) = calls w ∧
  calls (snd (_handleSave w1)) = calls w.
Proof.
  apply (empty_id_is_no_selection odd_world
           (Sched.mk "" "dtg" "03:00" "04:00" (of_Z 30) 3%positive) [2; 4]);
    vm_compute; reflexivity.
Defined.

(** ** What an action does to the store *)

Lemma then_render (m : M unit) w :
  snd ((m ;; _render) w) = snd (m w) ∨
  snd ((m ;; _render) w) = snd (_render (snd (m w))).
Proof. unfold bind. destruct (m w) as [[[]|] w0]; auto. Qed.

Lemma shadow_step_render w w0 :
  shadow_step w w0 → shadow_step w (snd (_render w0)).
Proof.
  intros Hs. destruct (_render_shadow w0) as [Hsame|Hnew].
  - destruct Hs as [Hs|Hs]; [left|right]; rewrite Hsame, ?_render_card;
      exact Hs.
  - right. exact Hnew.
Qed.

Lemma render_effect w a w0 : effect w a w0 → effect w a (snd (_render w0)).
Proof.
  intros [Hm He Ha Hs|b which d d' ev Hev Ht Hb Hd Hf Hm He Ha Hs
         |b which d xs day Hev Hb Hd Hxs Hm He Ha Hs
         |id s elems Hev Hd Hm He Ha Hs];
    apply shadow_step_render in Hs.
  - apply effect_none; by rewrite ?_render_mem, ?_render_card.
  - apply (effect_assign w _ _ b which d d' ev);
      by rewrite ?_render_mem, ?_render_card.
  - apply (effect_toggle w _ _ b which d xs day);
      by rewrite ?_render_mem, ?_render_card.
  - apply (effect_select w _ _ id s elems);
      by rewrite ?_render_mem, ?_render_card.
Qed.

Lemma effect_here w a : effect w a w.
Proof. apply effect_none; try reflexivity. by left. Qed.

Lemma assign_effect w b which f ev :
  target_of ev = Some which →
  shadowRoot w = Some b →
  (∀ d, days (f d) = days d) →
  effect w (Fire ev) (snd (assign (closed_over b which) f w)).
Proof.
  intros Hev Hb Hf. unfold assign. run.
  destruct (mem w !! closed_over b which) as [[| d |]|] eqn:Hd;
    try apply effect_here.
  apply (effect_assign w _ _ b which d (f d) ev); try done. by left.
Qed.

Lemma _toggleDay_effect w b which day :
  shadowRoot w = Some b →
  effect w (Fire (DayChipClick which day))
         (snd (_toggleDay (closed_over b which) day w)).
Proof.
  intros Hb.
  destruct (mem w !! closed_over b which) as [[| d |]|] eqn:Hd;
    try (unfold _toggleDay; run; rewrite Hd; apply effect_here).
  destruct (mem w !! days d) as [[xs| |]|] eqn:Hxs;
    try (unfold _toggleDay; run; rewrite Hd; cbn; rewrite Hxs;
         apply effect_here).
  rewrite (_toggleDay_run w _ d xs Hd Hxs).
  apply (effect_toggle w _ _ b which d xs day); try done. by left.
Qed.

Lemma _onSelectSchedule_effect w id :
  effect w (Fire (RowClick id)) (snd (_onSelectSchedule id w)).
Proof.
  destruct (find_schedule (mem w) id (published w)) as [s|] eqn:Hf.
  - destruct (mem w !! Sched.days s) as [[xs| |]|] eqn:Hd.
    + rewrite (_onSelectSchedule_selected w id s xs Hf Hd).
      apply render_effect.
      apply (effect_select w _ _ id s xs); try done. by left.
    + rewrite (select_shape_throw w id s Hf);
        [apply effect_none; try done; by left|].
      intros xs Hxs. congruence.
    + rewrite (select_shape_throw w id s Hf);
        [apply effect_none; try done; by left|].
      intros xs Hxs. congruence.
    + rewrite (select_shape_throw w id s Hf);
        [apply effect_none; try done; by left|].
      intros xs Hxs. congruence.
  - rewrite (_onSelectSchedule_missing w id Hf). apply effect_here.
Qed.

Lemma handler_effect op w a : effect w a (snd (handler op w)).
Proof.
  destruct (handler_outcome op w) as [->|[(msg & _ & ->)|(c & -> & _)]].
  - apply effect_here.
  - apply render_effect, effect_none; try done. by left.
  - apply effect_none; try done. by left.
Qed.

Lemma setConfig_effect config w a : effect w a (snd (setConfig config w)).
Proof.
  unfold setConfig. destruct config as [c|]; [|apply effect_here].
  destruct (truthy_id (cfg_entity c)); [|apply effect_here].
  match goal with
  | |- context [(?m ;; _render) w] =>
      destruct (then_render m w) as [-> | ->]
  end; [|apply render_effect]; apply effect_none; try done; by left.
Qed.

Lemma set_hass_effect hass w a : effect w a (snd (set_hass hass w)).
Proof.
  unfold set_hass.
  match goal with
  | |- context [(?m ;; _render) w] =>
      destruct (then_render m w) as [-> | ->]
  end; [|apply render_effect]; apply effect_none; try done; by left.
Qed.

Lemma listener_effect ev w : effect w (Fire ev) (snd (listener ev w)).
Proof.
  unfold listener. unfold bind at 1. cbn [fst snd].
  destruct (shadowRoot w) as [b|] eqn:Hb; [|apply effect_here].
  destruct ev as [id|which v|which v|which v|which v|which day| | |].
  - apply _onSelectSchedule_effect.
  - by apply assign_effect.
  - by apply assign_effect.
  - by apply assign_effect.
  - by apply assign_effect.
  - cbn [write].
    destruct (then_render (_toggleDay (closed_over b which) day) w)
      as [-> | ->]; [|apply render_effect]; by apply _toggleDay_effect.
  - apply (handler_effect Save).
  - apply (handler_effect Delete).
  - apply (handler_effect Add).
Qed.

Lemma perform_effect a w : effect w a (snd (perform a w)).
Proof.
  destruct a as [config|hass|ev]; simpl.
  - apply setConfig_effect.
  - apply set_hass_effect.
  - apply listener_effect.
Qed.

(** ** C9: selecting copies *)

Lemma assign_world w l f :
  snd (assign l f w) = w ∨
  ∃ d, mem w !! l = Some (ODraft d) ∧
       snd (assign l f w) =
       mkWorld (card w) (<[l := ODraft (f d)]> (mem w)) (calls w)
               (shadowRoot w).
Proof.
  unfold assign. run.
  destruct (mem w !! l) as [[| d |]|] eqn:Hd; try (by left).
  right. by exists d.
Qed.

Lemma _toggleDay_world w l day :
  snd (_toggleDay l day w) = w ∨
  ∃ d xs, mem w !! l = Some (ODraft d) ∧
          mem w !! days d = Some (OArray xs) ∧
          snd (_toggleDay l day w) =
          mkWorld (card w) (<[days d := OArray (toggle_days xs day)]> (mem w))
                  (calls w) (shadowRoot w).
Proof.
  destruct (mem w !! l) as [[| d |]|] eqn:Hd;
    try (left; unfold _toggleDay; run; by rewrite Hd).
  destruct (mem w !! days d) as [[xs| |]|] eqn:Hxs;
    try (left; unfold _toggleDay; run; rewrite Hd; cbn; by rewrite Hxs).
  right. exists d, xs. by rewrite (_toggleDay_run w _ d xs Hd Hxs).
Qed.

Lemma edits_draft_target ev which :
  edits_draft ev = true → target_of ev = Some which → which = EditDraft.
Proof.
  destruct ev as [| [] ? | [] ? | [] ? | [] ? | [] ? | | |]; simpl; congruence.
Qed.

Lemma reach_put_draft h tb l t d d' :
  h !! t = Some (ODraft d) → days d' = days d →
  reach (<[t := ODraft d']> h) tb l → reach h tb l.
Proof.
  intros Ht Hd (dd & Htb & Hl).
  assert (∀ l', (∃ xs, <[t := ODraft d']> h !! l' = Some (OArray xs)) →
                ∃ xs, h !! l' = Some (OArray xs)) as Harr.
  { intros l' [xs Hxs]. apply lookup_insert_Some in Hxs as [[_ ?]|[_ Hxs]];
      [done | by exists xs]. }
  apply lookup_insert_Some in Htb as [[<- [= <-]]|[Hne Htb]].
  - exists d. split; [done|]. rewrite <- Hd.
    destruct Hl as [->|[-> Hxs]]; [by left | right; auto].
  - exists dd. split; [done|].
    destruct Hl as [->|[-> Hxs]]; [by left | right; auto].
Qed.

Lemma reach_put_array h tb l t xs ys :
  h !! t = Some (OArray xs) →
  reach (<[t := OArray ys]> h) tb l → reach h tb l.
Proof.
  intros Ht (dd & Htb & Hl).
  apply lookup_insert_Some in Htb as [[_ ?]|[Hne Htb]]; [done|].
  exists dd. split; [done|].
  destruct Hl as [->|[-> [zs Hzs]]]; [by left|right]. split; [done|].
  apply lookup_insert_Some in Hzs as [[<- _]|[_ Hzs]];
    [by exists xs | by exists zs].
Qed.

Section Copy.
Variables (w : World) (id : string) (ls : list loc) (s : Sched.t)
          (elems : list Z).
Hypothesis Hlist : _getSchedules w = (Normal ls, w).
Hypothesis Hfound : find_schedule (mem w) id ls = Some s.
Hypothesis Hdays : mem w !! Sched.days s = Some (OArray elems).

Lemma copy_kept_selected : copy_kept w elems (mem (selected id s elems w)).
Proof.
  destruct (draft_ref_fresh w elems) as [Hdr Hne].
  pose proof (copy_ref_fresh w) as Hcr. unfold selected. cbn. split.
  - eexists. split; [apply lookup_insert_eq | reflexivity].
  - intros l o Hl. rewrite !lookup_insert_ne; [exact Hl | |]; intros <-;
      congruence.
Qed.

Lemma copy_kept_write ev w' :
  copy_kept w elems (mem w') →
  copy_kept w elems (mem (snd (write (draft_ref w elems) ev w'))).
Proof.
  intros [(dc & Hdc & Hda) Hframe].
  destruct (draft_ref_fresh w elems) as [Hdr Hne].
  pose proof (copy_ref_fresh w) as Hcr.
  assert (∀ f, (∀ d, days (f d) = days d) →
               copy_kept w elems
                 (mem (snd (assign (draft_ref w elems) f w')))) as Hassign.
  { intros f Hf.
    destruct (assign_world w' (draft_ref w elems) f) as [->|(d & Hd & ->)];
      [by split; [exists dc|]|].
    rewrite Hdc in Hd. injection Hd as <-. cbn. split.
    - exists (f dc). by rewrite lookup_insert_eq, Hf.
    - intros l o Hl. rewrite lookup_insert_ne; [by apply Hframe|].
      intros <-. congruence. }
  destruct ev as [id'|which v|which v|which v|which v|which day| | |];
    cbn [write]; try (by apply Hassign); try (by split; [exists dc|]).
  destruct (_toggleDay_world w' (draft_ref w elems) day)
    as [->|(d & xs & Hd & Hxs & ->)]; [by split; [exists dc|]|].
  rewrite Hdc in Hd. injection Hd as <-. rewrite Hda in Hxs |- *. cbn. split.
  - exists dc. by rewrite lookup_insert_ne by (by apply not_eq_sym).
  - intros l o Hl. rewrite lookup_insert_ne; [by apply Hframe|].
    intros <-. congruence.
Qed.

Lemma copy_kept_write_all evs w' :
  copy_kept w elems (mem w') →
  copy_kept w elems (mem (write_all (draft_ref w elems) evs w')).
Proof.
  revert w'. induction evs as [|ev r IH]; intros w' Hk; [exact Hk|].
  simpl. by apply IH, copy_kept_write.
Qed.

Lemma editing_copy_selected (stale : Prop) :
  stale ∨ (_config (card w) ≠ None ∧ fst (_onSelectSchedule id w) = Normal tt) →
  editing_copy stale w elems (snd (_onSelectSchedule id w)).
Proof using Hlist Hfound Hdays.
  intros Hcase.
  pose proof (_onSelectSchedule_found w id ls s elems Hlist Hfound Hdays)
    as Hrun.
  destruct copy_kept_selected as [(dc & Hdc & Hda) Hframe].
  destruct (draft_ref_fresh w elems) as [Hdr Hne].
  pose proof (copy_ref_fresh w) as Hcr.
  rewrite Hrun in Hcase |- *.
  set (w1 := snd (_render (selected id s elems w))).
  assert (card w1 = card (selected id s elems w)) as Hcard
    by apply _render_card.
  assert (mem w1 = mem (selected id s elems w)) as Hmem by apply _render_mem.
  split; [by rewrite Hcard|]. split; [rewrite Hmem; by exists dc|].
  split; [|split].
  - intros b Hb. destruct Hcase as [Hst|[Hc Hn]].
    + destruct (_render_shadow (selected id s elems w)) as [Hs|Hs];
        fold w1 in Hs; rewrite Hs in Hb; [right; by split|].
      injection Hb as <-. left. cbn. by rewrite Hcard.
    + unfold w1 in Hb. rewrite _render_run in Hn, Hb.
      change (_config (card (selected id s elems w)))
        with (_config (card w)) in Hn, Hb.
      destruct (_config (card w)) as [cfg|]; [|done].
      destruct (renders (selected id s elems w)); [|discriminate].
      cbn in Hb. injection Hb as <-. by left.
  - intros l o Hl _. rewrite Hmem. by apply Hframe.
  - intros b l Hst Hb (dd & Htb & Hl). rewrite Hmem in Htb, Hl.
    unfold selected in Htb, Hl. cbn in Htb, Hl.
    apply lookup_insert_Some in Htb as [[E [= <-]]|[Nt Htb]].
    { left. destruct Hl as [->|[-> _]]; [by rewrite <- E | exact Hcr]. }
    apply lookup_insert_Some in Htb as [[_ ?]|[Nc Htb]]; [done|].
    destruct Hl as [->|[-> [xs Hxs]]].
    { right. exists b. split; [done|]. exists dd. split; [done|by left]. }
    apply lookup_insert_Some in Hxs as [[_ ?]|[_ Hxs]]; [done|].
    apply lookup_insert_Some in Hxs as [[<- _]|[_ Hxs]]; [by left|].
    right. exists b. split; [done|]. exists dd. split; [done|]. right.
    split; [done|by exists xs].
Qed.

Lemma editing_copy_event (stale : Prop) ev w' :
  edits_draft ev = true → editing_copy stale w elems w' →
  editing_copy stale w elems (snd (listener ev w')).
Proof.
  intros Hev (Hedit & (dc & Hdc & Hda) & Hbound & Hframe & Hreach).
  destruct (draft_ref_fresh w elems) as [Hdr Hne].
  pose proof (copy_ref_fresh w) as Hcr.
  set (w'' := snd (listener ev w')).
  pose proof (listener_effect ev w') as He.
  change (effect w' (Fire ev) w'') in He.
  assert (shadow_step w' w'' →
          edit (_state (card w'')) = edit (_state (card w')) →
          ∀ b, shadowRoot w'' = Some b →
               bound_edit b = draft_ref w elems ∨
               (stale ∧ shadowRoot w = Some b)) as Hshadow.
  { intros [Hs|Hs] He' b; rewrite Hs; [apply Hbound|].
    intros [= <-]. left. cbn. by rewrite He'. }
  assert (∀ b l, shadowRoot w' = Some b → reach (mem w') (bound_edit b) l →
                 mem w !! l = None ∨ (stale ∧ previous_draft w l))
    as Hwritable.
  { intros b l Hb Hr. destruct (Hbound b Hb) as [Eb|[Hst Hb0]].
    - rewrite Eb in Hr. destruct Hr as (d & Hd & [->|[-> _]]); [by left|].
      rewrite Hdc in Hd. injection Hd as <-. rewrite Hda. by left.
    - destruct (Hreach b l Hst Hb0 Hr) as [?|?]; [by left|by right]. }
  assert (∀ t o', mem w !! t = None ∨ (stale ∧ previous_draft w t) →
                  ∀ l o, mem w !! l = Some o →
                         (stale → ¬ previous_draft w l) →
                         <[t := o']> (mem w') !! l = Some o) as Hput.
  { intros t o' Ht l o Hl Hex. rewrite lookup_insert_ne; [by apply Hframe|].
    intros <-. destruct Ht as [Ht|[Hst Ht]]; [congruence|by apply Hex]. }
  destruct He as [Hm He Ha Hs
                 |b which d d' ev' Hfire Htar Hb Hd Hdd Hm He Ha Hs
                 |b which d xs day Hfire Hb Hd Hxs Hm He Ha Hs
                 |id' s' elems' Hfire _ _ _ _ _].
  - split; [by rewrite He|]. split; [exists dc; by rewrite Hm|].
    split; [by apply Hshadow|]. split; [by rewrite Hm|].
    intros b l Hst Hb0. rewrite Hm. by apply Hreach.
  - injection Hfire as <-.
    pose proof (edits_draft_target _ _ Hev Htar) as ->.
    cbn [closed_over] in Hd, Hm.
    assert (mem w !! bound_edit b = None ∨
            (stale ∧ previous_draft w (bound_edit b))) as Hw.
    { apply (Hwritable b _ Hb). exists d. split; [done|by left]. }
    split; [by rewrite He|]. split.
    { rewrite Hm.
      destruct (decide (bound_edit b = draft_ref w elems)) as [E|N].
      - rewrite E in Hd |- *. rewrite Hdc in Hd. injection Hd as <-.
        exists d'. rewrite lookup_insert_eq. split; [done|]. by rewrite Hdd.
      - exists dc. by rewrite lookup_insert_ne. }
    split; [by apply Hshadow|]. split; [rewrite Hm; by apply Hput|].
    intros b0 l Hst Hb0 Hr. rewrite Hm in Hr.
    apply (reach_put_draft _ _ _ _ d) in Hr; [|done|done].
    by apply (Hreach b0).
  - injection Hfire as ->. simpl in Hev.
    destruct which; [|discriminate]. cbn [closed_over] in Hd.
    assert (mem w !! days d = None ∨ (stale ∧ previous_draft w (days d)))
      as Hw.
    { apply (Hwritable b _ Hb). exists d. split; [done|]. right.
      split; [done|by exists xs]. }
    split; [by rewrite He|]. split.
    { rewrite Hm. exists dc. rewrite lookup_insert_ne; [done|].
      intros E. rewrite E in Hxs. congruence. }
    split; [by apply Hshadow|]. split; [rewrite Hm; by apply Hput|].
    intros b0 l Hst Hb0 Hr. rewrite Hm in Hr.
    apply (reach_put_array _ _ _ _ xs) in Hr; [|done].
    by apply (Hreach b0).
  - injection Hfire as ->. discriminate.
Qed.

Lemma editing_copy_deliver (stale : Prop) evs w' :
  forallb edits_draft evs = true → editing_copy stale w elems w' →
  editing_copy stale w elems (deliver evs w').
Proof.
  revert w'. induction evs as [|ev r IH]; intros w' Hall Hi; [exact Hi|].
  simpl in Hall. apply andb_true_iff in Hall as [Hev Hr].
  simpl. apply IH; [exact Hr|]. by apply editing_copy_event.
Qed.
End Copy.

(** C9: [_onSelectSchedule] copies the schedule it finds into a new draft
    object with a new days array, neither of which existed before, and
    makes it the edit draft.  However that draft is then written to, by
    the assignments and the day toggles of the listeners of the edit
    form, every object that existed before the selection, the schedule
    and its days array among them, stays as it was.  The same holds of
    the events of the edit form themselves when the selection ended
    normally on a configured card, for the listeners then close over the
    new draft.  When [_render] threw at the end of the selection, the
    listeners of the previous rendering are still attached and close over
    the previous edit draft: the events then leave every object but that
    draft and its days array as it was, the schedule record in any
    case. *)
Theorem selectSchedule_copy_is_separate
    (w : World) (id : string) (ls : list loc) (s : Sched.t)
    (elems : list Z) (evs : list Event) :
  _getSchedules w = (Normal ls, w) →
  find_schedule (mem w) id ls = Some s →
  mem w !! Sched.days s = Some (OArray elems) →
  forallb edits_draft evs = true →
  let w1 := snd (_onSelectSchedule id w) in
  let draft := edit (_state (card w1)) in
  edit_days w1 = Some elems ∧
  mem w !! draft = None ∧
  (∃ d, mem w1 !! draft = Some (ODraft d) ∧ mem w !! days d = None) ∧
  (∀ l o, mem w !! l = Some o → mem (write_all draft evs w1) !! l = Some o) ∧
  (_config (card w) ≠ None → fst (_onSelectSchedule id w) = Normal tt →
   ∀ l o, mem w !! l = Some o → mem (deliver evs w1) !! l = Some o) ∧
  (∀ l o, mem w !! l = Some o → ¬ previous_draft w l →
          mem (deliver evs w1) !! l = Some o) ∧
  (∃ l, l ∈ ls ∧ mem w !! l = Some (OSched s) ∧
        mem (deliver evs w1) !! l = Some (OSched s)).
Proof.
  intros Hlist Hfound Hdays Hevs. cbv zeta.
  destruct (draft_ref_fresh w elems) as [Hdr Hne].
  pose proof (copy_ref_fresh w) as Hcr.
  pose proof (_onSelectSchedule_found w id ls s elems Hlist Hfound Hdays)
    as Hrun.
  assert (card (snd (_onSelectSchedule id w)) = card (selected id s elems w))
    as Hcard by (rewrite Hrun; apply _render_card).
  assert (mem (snd (_onSelectSchedule id w)) = mem (selected id s elems w))
    as Hmem by (rewrite Hrun; apply _render_mem).
  assert (edit (_state (card (snd (_onSelectSchedule id w)))) =
          draft_ref w elems) as Hedit by (by rewrite Hcard).
  pose proof (editing_copy_deliver w elems True evs _ Hevs
                (editing_copy_selected w id ls s elems Hlist Hfound Hdays
                   True (or_introl I)))
    as (_ & _ & _ & Hstale & _).
  rewrite Hedit. split; [|split; [|split; [|split; [|split; [|split]]]]].
  - unfold edit_days, view_draft. rewrite Hedit, Hmem. unfold selected. cbn.
    rewrite lookup_insert_eq. cbn.
    rewrite lookup_insert_ne by (intros E; by apply Hne).
    by rewrite lookup_insert_eq.
  - exact Hdr.
  - rewrite Hmem. unfold selected. cbn. eexists.
    split; [apply lookup_insert_eq | exact Hcr].
  - apply (copy_kept_write_all w elems evs). rewrite Hmem.
    apply copy_kept_selected.
  - intros Hc Hn.
    pose proof (editing_copy_deliver w elems False evs _ Hevs
                  (editing_copy_selected w id ls s elems Hlist Hfound Hdays
                     False (or_intror (conj Hc Hn))))
      as (_ & _ & _ & Hframe & _).
    intros l o Hl. by apply Hframe.
  - intros l o Hl Hno. by apply Hstale.
  - destruct (find_schedule_Some _ _ _ _ Hfound) as (l & Hin & Hl & _).
    exists l. split; [done|]. split; [done|]. apply Hstale; [done|].
    intros _ (b & _ & d & Hd & [->|[-> [xs Hxs]]]); congruence.
Qed.

Lemma selectSchedule_copy_is_separate_witness :
  let w := installed (fun _ => Fulfilled) in
  let w1 := snd (_onSelectSchedule "sched-1" w) in
  let evs := [DayChipClick EditDraft 3; DayChipClick EditDraft 7;
              StartChange EditDraft "09:30"] in
  let w2 := deliver evs w1 in
  edit_days w1 = Some [1; 2; 3; 4; 5] ∧
  edit_days w2 = Some [1; 2; 4; 5; 7] ∧
  edit_days (write_all (edit (_state (card w1))) evs w1) =
    Some [1; 2; 4; 5; 7] ∧
  mem w !! 1%positive = Some (OArray [1; 2; 3; 4; 5]) ∧
  mem w2 !! 1%positive = Some (OArray [1; 2; 3; 4; 5]) ∧
  (∀ l o, mem w !! l = Some o →
          mem (write_all (edit (_state (card w1))) evs w1) !! l = Some o) ∧
  (∀ l o, mem w !! l = Some o → mem w2 !! l = Some o).
Proof.
  cbv zeta.
  destruct (selectSchedule_copy_is_separate
              (installed (fun _ => Fulfilled)) "sched-1"
              [2%positive; 4%positive]
              (Sched.mk "sched-1" "cfg" "08:00" "12:00" (of_Z 50) 1%positive)
              [1; 2; 3; 4; 5]
              [DayChipClick EditDraft 3; DayChipClick EditDraft 7;
               StartChange EditDraft "09:30"])
    as (Hcopy & _ & _ & Hwrites & Hevents & _);
    try (vm_compute; reflexivity).
  assert (∀ l o, mem (installed (fun _ => Fulfilled)) !! l = Some o →
                 mem (deliver [DayChipClick EditDraft 3;
                               DayChipClick EditDraft 7;
                               StartChange EditDraft "09:30"]
                        (snd (_onSelectSchedule "sched-1"
                                (installed (fun _ => Fulfilled))))) !! l =
                 Some o) as Hframe.
  { apply Hevents; [discriminate | vm_compute; reflexivity]. }
  split; [exact Hcopy|]. split; [vm_compute; reflexivity|].
  split; [vm_compute; reflexivity|]. split; [vm_compute; reflexivity|].
  split; [apply Hframe; vm_compute; reflexivity|].
  split; [exact Hwrites | exact Hframe].
Defined.

(** ** Invariants of the store *)

Lemma toggle_days_from xs d x : x ∈ toggle_days xs d → x ∈ xs ∨ x = d.
Proof.
  destruct (decide (d ∈ xs)) as [Hin|Hno].
  - destruct (elem_of_split_first xs d Hin) as (pre & post & -> & Hpre).
    rewrite toggle_days_present by exact Hpre.
    rewrite !elem_of_app, elem_of_cons. tauto.
  - rewrite toggle_days_absent by exact Hno.
    rewrite sort_perm, elem_of_app, list_elem_of_singleton. tauto.
Qed.

(** A property of arrays that toggling keeps is kept by every action. *)
Lemma effect_arrays (P : list Z → Prop) w a w' :
  effect w a w' →
  (∀ which day xs,
     a = Fire (DayChipClick which day) → P xs → P (toggle_days xs day)) →
  (∀ l xs, mem w !! l = Some (OArray xs) → P xs) →
  ∀ l xs, mem w' !! l = Some (OArray xs) → P xs.
Proof.
  intros He Htog Hall l xs.
  destruct He as [Hm _ _ _|b which d d' ev _ _ _ Hd _ Hm _ _ _
                 |b which d ys day Ha _ Hd Hys Hm _ _ _
                 |id s elems _ Hs Hm _ _ _]; rewrite Hm.
  - apply Hall.
  - rewrite lookup_insert_Some. intros [[_ ?]|[_ Hl]]; [done|].
    by apply (Hall l).
  - rewrite lookup_insert_Some. intros [[_ [= <-]]|[_ Hl]].
    + apply (Htog which day ys Ha). by apply (Hall (days d)).
    + by apply (Hall l).
  - rewrite lookup_insert_Some. intros [[_ ?]|[_ Hl]]; [done|].
    revert Hl. rewrite lookup_insert_Some. intros [[_ [= <-]]|[_ Hl]].
    + by apply (Hall (Sched.days s)).
    + by apply (Hall l).
Qed.

Lemma perform_all_arrays (P : list Z → Prop) acts :
  (∀ a which day xs,
     a ∈ acts → a = Fire (DayChipClick which day) → P xs →
     P (toggle_days xs day)) →
  ∀ w, (∀ l xs, mem w !! l = Some (OArray xs) → P xs) →
       ∀ l xs, mem (perform_all acts w) !! l = Some (OArray xs) → P xs.
Proof.
  induction acts as [|a r IH]; intros Htog w Hall; [exact Hall|].
  simpl. apply IH.
  - intros a' which day xs Hin. apply Htog. by apply elem_of_cons; right.
  - apply (effect_arrays P w a _ (perform_effect a w)); [|exact Hall].
    intros which day xs. apply Htog. by apply elem_of_cons; left.
Qed.

Lemma fresh_ne (m : gmap loc obj) l : is_Some (m !! l) → fresh (dom m) ≠ l.
Proof.
  intros Hl E. apply (is_fresh (dom m)). rewrite E. by apply elem_of_dom.
Qed.

(** The store of a new card: the given one and four new objects. *)
Lemma constructor_shape store :
  ∃ l1 l2 l3 l4,
    let h1 := <[l1 := OArray []]> store in
    let h2 := <[l2 := ODraft (mkDraft "cfg" "00:00" "00:00" (of_Z 0) l1)]> h1 in
    let h3 := <[l3 := OArray []]> h2 in
    let h4 := <[l4 := ODraft (mkDraft "cfg" "00:00" "00:00" (of_Z 0) l3)]> h3 in
    constructor store =
      mkWorld (mkCard None None (mkState None l2 l4 "")) h4 [] None ∧
    l1 = fresh (dom store) ∧ l2 = fresh (dom h1) ∧
    l3 = fresh (dom h2) ∧ l4 = fresh (dom h3).
Proof.
  set (l1 := fresh (dom store)).
  set (h1 := <[l1 := OArray []]> store).
  set (l2 := fresh (dom h1)).
  set (h2 := <[l2 := ODraft (mkDraft "cfg" "00:00" "00:00" (of_Z 0) l1)]> h1).
  set (l3 := fresh (dom h2)).
  set (h3 := <[l3 := OArray []]> h2).
  set (l4 := fresh (dom h3)).
  exists l1, l2, l3, l4. cbv zeta. repeat split.
Qed.

Lemma constructor_arrays (P : list Z → Prop) store :
  P [] →
  (∀ l xs, store !! l = Some (OArray xs) → P xs) →
  ∀ l xs, mem (constructor store) !! l = Some (OArray xs) → P xs.
Proof.
  intros Hnil Hall l xs.
  destruct (constructor_shape store) as (l1 & l2 & l3 & l4 & Hc).
  cbv zeta in Hc. destruct Hc as (-> & _). cbn.
  rewrite lookup_insert_Some. intros [[_ ?]|[_ Hl]]; [done|]. revert Hl.
  rewrite lookup_insert_Some. intros [[_ [= <-]]|[_ Hl]]; [done|]. revert Hl.
  rewrite lookup_insert_Some. intros [[_ ?]|[_ Hl]]; [done|]. revert Hl.
  rewrite lookup_insert_Some. intros [[_ [= <-]]|[_ Hl]]; [done|].
  by apply (Hall l).
Qed.

Lemma view_days_array h l xs :
  view_draft h l ≫= view_days = Some xs →
  ∃ d, h !! l = Some (ODraft d) ∧ h !! days d = Some (OArray xs).
Proof.
  unfold view_draft. destruct (h !! l) as [[| d |]|]; try discriminate.
  cbn. destruct (h !! days d) as [[ys| |]|] eqn:Hd; try discriminate.
  intros [= ->]. by exists d.
Qed.

Lemma weekdays_at_most_seven xs :
  NoDup xs → Forall weekday xs → (length xs <= 7)%nat.
Proof.
  intros Hnd Hall.
  change 7%nat with (length [1; 2; 3; 4; 5; 6; 7]).
  apply submseteq_length, NoDup_submseteq; [exact Hnd|].
  intros x Hx. rewrite Forall_forall in Hall. specialize (Hall x Hx).
  unfold weekday in Hall. rewrite !elem_of_cons. lia.
Qed.

(** X13: on a card built over a store whose arrays are ascending and
    without duplicates, every array stays so whatever is done to the
    card: whatever configuration, connection, clicks and changes follow,
    the days of the edit draft and of the add draft are ascending and
    hold no code twice. *)
Theorem days_stay_tidy (store : gmap loc obj) (acts : list Action) :
  arrays_tidy store →
  let w := perform_all acts (constructor store) in
  arrays_tidy (mem w) ∧
  (∀ xs, edit_days w = Some xs → Sorted Z.le xs ∧ NoDup xs) ∧
  (∀ xs, add_days w = Some xs → Sorted Z.le xs ∧ NoDup xs).
Proof.
  intros Hstore. cbv zeta.
  assert (arrays_tidy (mem (perform_all acts (constructor store)))) as Hall.
  { unfold arrays_tidy.
    apply (perform_all_arrays (λ xs, Sorted Z.le xs ∧ NoDup xs)).
    - intros _ _ day xs _ _ [Hs Hnd]. split.
      + apply toggle_days_sorted. by right.
      + by apply toggle_days_NoDup.
    - apply (constructor_arrays (λ xs, Sorted Z.le xs ∧ NoDup xs));
        [|exact Hstore].
      split; [constructor | apply NoDup_nil_2]. }
  split; [exact Hall|].
  split; intros xs Hxs; apply view_days_array in Hxs as (d & _ & Hd);
    by apply (Hall (days d)).
Qed.

Ltac by_decision := apply (bool_decide_unpack _); vm_compute; exact I.

Ltac each_array H :=
  apply elem_of_map_to_list in H; vm_compute in H;
  repeat (apply elem_of_cons in H as [H|H]);
  try (by apply elem_of_nil in H); inversion H; subst.

Lemma days_stay_tidy_witness :
  let w := perform_all
             [SetConfig card_config;
              SetHass (Some (host (fun _ => Fulfilled)));
              Fire (RowClick "sched-2"); Fire (DayChipClick EditDraft 3);
              Fire (DayChipClick AddDraft 5); Fire (DayChipClick AddDraft 2)]
             (constructor host_store) in
  edit_days w = Some [3; 6; 7] ∧
  add_days w = Some [2; 5] ∧
  arrays_tidy (mem w) ∧
  (∀ xs, edit_days w = Some xs → Sorted Z.le xs ∧ NoDup xs) ∧
  (∀ xs, add_days w = Some xs → Sorted Z.le xs ∧ NoDup xs).
Proof.
  cbv zeta. split; [vm_compute; reflexivity|].
  split; [vm_compute; reflexivity|].
  apply (days_stay_tidy host_store).
  intros l xs H. each_array H; split; by_decision.
Defined.

(** X14: when, besides, the arrays of the store hold weekday codes only
    and the day chips pass the codes 1 to 7 they are rendered with, the
    days of both drafts hold weekday codes only, so never more than
    seven. *)
Theorem days_stay_weekdays (store : gmap loc obj) (acts : list Action) :
  arrays_tidy store →
  arrays_weekdays store →
  Forall from_the_chips acts →
  let w := perform_all acts (constructor store) in
  arrays_weekdays (mem w) ∧
  (∀ xs, edit_days w = Some xs → Forall weekday xs ∧ (length xs <= 7)%nat) ∧
  (∀ xs, add_days w = Some xs → Forall weekday xs ∧ (length xs <= 7)%nat).
Proof.
  intros Htidy Hweek Hchips. cbv zeta.
  assert (∀ l xs,
            mem (perform_all acts (constructor store)) !! l = Some (OArray xs) →
            NoDup xs ∧ Forall weekday xs) as Hall.
  { apply (perform_all_arrays (λ xs, NoDup xs ∧ Forall weekday xs)).
    - intros a which day xs Hin -> [Hnd Hall].
      rewrite Forall_forall in Hchips. specialize (Hchips _ Hin).
      simpl in Hchips. split; [by apply toggle_days_NoDup|].
      rewrite Forall_forall in Hall |- *. intros x Hx.
      apply toggle_days_from in Hx as [Hx| ->]; [by apply Hall | exact Hchips].
    - apply (constructor_arrays (λ xs, NoDup xs ∧ Forall weekday xs)).
      + split; [apply NoDup_nil_2 | constructor].
      + intros l xs Hl. split; [by apply (Htidy l) | by apply (Hweek l)]. }
  split; [intros l xs Hl; by apply (Hall l)|].
  split; intros xs Hxs; apply view_days_array in Hxs as (d & _ & Hd);
    destruct (Hall _ _ Hd) as [Hnd Hw];
    (split; [exact Hw | by apply weekdays_at_most_seven]).
Qed.

Lemma days_stay_weekdays_witness :
  let w := perform_all
             [SetConfig card_config;
              SetHass (Some (host (fun _ => Fulfilled)));
              Fire (RowClick "sched-1"); Fire (DayChipClick EditDraft 6);
              Fire (DayChipClick EditDraft 7)]
             (constructor host_store) in
  edit_days w = Some [1; 2; 3; 4; 5; 6; 7] ∧
  arrays_weekdays (mem w) ∧
  (∀ xs, edit_days w = Some xs → Forall weekday xs ∧ (length xs <= 7)%nat) ∧
  (∀ xs, add_days w = Some xs → Forall weekday xs ∧ (length xs <= 7)%nat).
Proof.
  cbv zeta. split; [vm_compute; reflexivity|].
  apply (days_stay_weekdays host_store).
  - intros l xs H. each_array H; split; by_decision.
  - intros l xs H. each_array H; repeat constructor; unfold weekday; lia.
  - repeat constructor; unfold weekday; lia.
Defined.

(** ** The two drafts *)

Lemma draft_is_no_array (h : gmap loc obj) l1 l2 d xs :
  h !! l1 = Some (ODraft d) → h !! l2 = Some (OArray xs) → l1 ≠ l2.
Proof. intros H1 H2 E. rewrite E in H1. congruence. Qed.

Lemma apart_put_draft h l1 l2 t d d' :
  h !! t = Some (ODraft d) → days d' = days d →
  apart h l1 l2 → apart (<[t := ODraft d']> h) l1 l2.
Proof.
  intros Ht Hd (Hne & d1 & d2 & xs1 & xs2 & H1 & H2 & A1 & A2 & Hdne).
  split; [exact Hne|].
  pose proof (draft_is_no_array _ _ _ _ _ Ht A1) as N1.
  pose proof (draft_is_no_array _ _ _ _ _ Ht A2) as N2.
  destruct (decide (t = l1)) as [E1|T1]; destruct (decide (t = l2)) as [E2|T2];
    try subst t.
  - done.
  - rewrite H1 in Ht. injection Ht as <-.
    exists d', d2, xs1, xs2. rewrite Hd.
    by rewrite lookup_insert_eq, !lookup_insert_ne by done.
  - rewrite H2 in Ht. injection Ht as <-.
    exists d1, d', xs1, xs2. rewrite Hd.
    by rewrite lookup_insert_eq, !lookup_insert_ne by done.
  - exists d1, d2, xs1, xs2. by rewrite !lookup_insert_ne by done.
Qed.

Lemma apart_put_array h l1 l2 t xs ys :
  h !! t = Some (OArray xs) →
  apart h l1 l2 → apart (<[t := OArray ys]> h) l1 l2.
Proof.
  intros Ht (Hne & d1 & d2 & xs1 & xs2 & H1 & H2 & A1 & A2 & Hdne).
  split; [exact Hne|].
  pose proof (draft_is_no_array _ _ _ _ _ H1 Ht) as N1.
  pose proof (draft_is_no_array _ _ _ _ _ H2 Ht) as N2.
  assert (∀ l zs, h !! l = Some (OArray zs) →
            ∃ zs', <[t := OArray ys]> h !! l = Some (OArray zs')) as Harr.
  { intros l zs Hl. destruct (decide (t = l)) as [->|Hn].
    - exists ys. by rewrite lookup_insert_eq.
    - exists zs. by rewrite lookup_insert_ne. }
  destruct (Harr _ _ A1) as [zs1 Z1]. destruct (Harr _ _ A2) as [zs2 Z2].
  exists d1, d2, zs1, zs2.
  by rewrite !lookup_insert_ne by (by apply not_eq_sym).
Qed.

Lemma apart_put_new h l1 l2 t o :
  h !! t = None → apart h l1 l2 → apart (<[t := o]> h) l1 l2.
Proof.
  intros Ht (Hne & d1 & d2 & xs1 & xs2 & H1 & H2 & A1 & A2 & Hdne).
  split; [exact Hne|]. exists d1, d2, xs1, xs2.
  assert (∀ l o', h !! l = Some o' → t ≠ l) as Hn
    by (intros l o' Hl ->; congruence).
  rewrite !lookup_insert_ne by eauto. done.
Qed.

Lemma separated_step w w' :
  shadow_step w w' →
  add (_state (card w')) = add (_state (card w)) →
  apart (mem w') (edit (_state (card w'))) (add (_state (card w'))) →
  (∀ b, shadowRoot w = Some b →
        bound_add b = add (_state (card w)) ∧
        apart (mem w') (bound_edit b) (add (_state (card w)))) →
  separated w'.
Proof.
  intros [Hs|Hs] Ha Hap Hb; (split; [exact Hap|]); intros b; rewrite Hs, Ha.
  - apply Hb.
  - intros [= <-]. cbn. by rewrite <- Ha.
Qed.

Lemma constructor_separated store : separated (constructor store).
Proof.
  destruct (constructor_shape store) as (l1 & l2 & l3 & l4 & Hc).
  cbv zeta in Hc. destruct Hc as (-> & E1 & E2 & E3 & E4).
  assert (l2 ≠ l1) as N21
    by (rewrite E2; apply fresh_ne; rewrite lookup_insert_eq; eauto).
  assert (l3 ≠ l2) as N32
    by (rewrite E3; apply fresh_ne; rewrite lookup_insert_eq; eauto).
  assert (l3 ≠ l1) as N31.
  { rewrite E3. apply fresh_ne.
    rewrite lookup_insert_ne, lookup_insert_eq by done. eauto. }
  assert (l4 ≠ l3) as N43
    by (rewrite E4; apply fresh_ne; rewrite lookup_insert_eq; eauto).
  assert (l4 ≠ l2) as N42.
  { rewrite E4. apply fresh_ne.
    rewrite lookup_insert_ne, lookup_insert_eq by done. eauto. }
  assert (l4 ≠ l1) as N41.
  { rewrite E4. apply fresh_ne.
    rewrite !lookup_insert_ne, lookup_insert_eq by done. eauto. }
  split; [|intros b; discriminate].
  cbn. split; [by apply not_eq_sym|].
  eexists _, _, [], []. repeat split.
  - rewrite !lookup_insert_ne, lookup_insert_eq by done. reflexivity.
  - rewrite lookup_insert_eq. reflexivity.
  - cbn. by rewrite !lookup_insert_ne, lookup_insert_eq by done.
  - cbn. by rewrite !lookup_insert_ne, lookup_insert_eq by done.
  - cbn. by apply not_eq_sym.
Qed.

Lemma effect_separated w a w' : effect w a w' → separated w → separated w'.
Proof.
  intros He [Hap Hbound].
  destruct He as [Hm He Ha Hs|b which d d' ev _ _ Hb Hd Hdays Hm He Ha Hs
                 |b which d zs day _ Hb Hd Hzs Hm He Ha Hs
                 |id s elems _ Hsd Hm He Ha Hs];
    apply (separated_step w w' Hs Ha); rewrite Hm, ?He, ?Ha.
  - exact Hap.
  - exact Hbound.
  - by apply (apart_put_draft _ _ _ _ d).
  - intros b' Hb'. destruct (Hbound b' Hb') as [? ?].
    split; [done|]. by apply (apart_put_draft _ _ _ _ d).
  - by apply (apart_put_array _ _ _ _ zs).
  - intros b' Hb'. destruct (Hbound b' Hb') as [? ?].
    split; [done|]. by apply (apart_put_array _ _ _ _ zs).
  - destruct (draft_ref_fresh w elems) as [Hdr Hdc].
    pose proof (copy_ref_fresh w) as Hcr.
    destruct Hap as (_ & _ & d2 & _ & xs2 & _ & H2 & _ & A2 & _).
    assert (∀ l o, mem w !! l = Some o →
                   l ≠ draft_ref w elems ∧ l ≠ copy_ref w) as Hold.
    { intros l o Hl. split; intros ->; congruence. }
    destruct (Hold _ _ H2) as [A1 A3]. destruct (Hold _ _ A2) as [B1 B2].
    split; [by apply not_eq_sym|].
    exists (mkDraft (Sched.type s) (Sched.start s) (Sched.end_ s)
                    (Sched.limit s) (copy_ref w)), d2, elems, xs2.
    cbn. split; [by rewrite lookup_insert_eq|].
    split; [by rewrite !lookup_insert_ne by (by apply not_eq_sym)|].
    split; [by rewrite lookup_insert_ne, lookup_insert_eq
              by (by apply not_eq_sym)|].
    split; [by rewrite !lookup_insert_ne by (by apply not_eq_sym)|].
    by apply not_eq_sym.
  - intros b' Hb'. destruct (Hbound b' Hb') as [? ?]. split; [done|].
    destruct (draft_ref_fresh w elems) as [Hdr Hdc].
    apply apart_put_new.
    + rewrite lookup_insert_ne by (by apply not_eq_sym). exact Hdr.
    + apply apart_put_new; [apply copy_ref_fresh | done].
Qed.

Lemma perform_all_separated acts w :
  separated w → separated (perform_all acts w).
Proof.
  revert w. induction acts as [|a r IH]; intros w Hs; [exact Hs|].
  simpl. apply IH.
  exact (effect_separated w a _ (perform_effect a w) Hs).
Qed.

Lemma view_draft_insert_ne h l d t o :
  h !! l = Some (ODraft d) → t ≠ l → t ≠ days d →
  view_draft (<[t := o]> h) l = view_draft h l.
Proof.
  intros Hl N1 N2. unfold view_draft.
  rewrite lookup_insert_ne, Hl by done. by rewrite lookup_insert_ne by done.
Qed.

(** X15: on every card, whatever was done to it since its construction,
    the edit draft and the add draft are two objects with two days
    arrays: a change of a field or a click on a day chip of one draft
    leaves the other draft exactly as it was. *)
Theorem drafts_never_share
    (store : gmap loc obj) (acts : list Action) (ev : Event) (which : Which) :
  target_of ev = Some which →
  let w := perform_all acts (constructor store) in
  let w' := snd (listener ev w) in
  slot (other which) w' = slot (other which) w ∧
  is_Some (view_draft (mem w) (slot (other which) w)) ∧
  view_draft (mem w') (slot (other which) w') =
  view_draft (mem w) (slot (other which) w).
Proof.
  intros Hev. cbv zeta.
  set (w := perform_all acts (constructor store)).
  set (w' := snd (listener ev w)).
  pose proof (perform_all_separated acts _ (constructor_separated store))
    as [Hap Hbound].
  fold w in Hap, Hbound.
  pose proof Hap as (Hne & e & d0 & xs & ys & Hedit & Hadd & Hxs & Hys & Hdne).
  pose proof (draft_is_no_array _ _ _ _ _ Hedit Hxs) as N1.
  pose proof (draft_is_no_array _ _ _ _ _ Hedit Hys) as N2.
  pose proof (draft_is_no_array _ _ _ _ _ Hadd Hxs) as N3.
  pose proof (draft_is_no_array _ _ _ _ _ Hadd Hys) as N4.
  assert (is_Some (view_draft (mem w) (slot (other which) w))) as Hsome.
  { unfold view_draft.
    destruct which; cbn [slot other]; rewrite ?Hedit, ?Hadd; eauto. }
  pose proof (listener_effect ev w) as He.
  change (effect w (Fire ev) w') in He.
  destruct He as [Hm He Ha _
                 |b which' d d' ev' [= <-] Hev' Hb Hd Hdays Hm He Ha _
                 |b which' d zs day [= ->] Hb Hd Hzs Hm He Ha _
                 |id s elems [= ->] _ _ _ _ _].
  - split; [by destruct which; cbn [slot other]|]. split; [exact Hsome|].
    rewrite Hm. by destruct which; cbn [slot other]; rewrite ?He, ?Ha.
  - rewrite Hev in Hev'. injection Hev' as <-.
    destruct (Hbound b Hb)
      as (Hba & Hbne & be & ? & zs & ? & Hbe & Hadd' & Hzs & _ & Hbd).
    split; [by destruct which; cbn [slot other]|]. split; [exact Hsome|].
    rewrite Hm.
    destruct which; cbn [slot other closed_over] in Hd |- *; rewrite ?He, ?Ha.
    + apply (view_draft_insert_ne _ _ d0); [exact Hadd|exact Hbne|].
      by apply (draft_is_no_array (mem w) _ _ be ys).
    + rewrite Hba. apply (view_draft_insert_ne _ _ e);
        [exact Hedit|by apply not_eq_sym|by apply not_eq_sym].
  - cbn in Hev. injection Hev as <-.
    destruct (Hbound b Hb)
      as (Hba & Hbne & be & d1 & zs' & ys' & Hbe & Hadd' & Hzs' & _ & Hbd).
    rewrite Hadd in Hadd'. injection Hadd' as <-.
    split; [by destruct which'; cbn [slot other]|]. split; [exact Hsome|].
    rewrite Hm.
    destruct which'; cbn [slot other closed_over] in Hd |- *; rewrite ?He, ?Ha.
    + rewrite Hbe in Hd. injection Hd as <-.
      apply (view_draft_insert_ne _ _ d0); [exact Hadd| |exact Hbd].
      apply not_eq_sym. by apply (draft_is_no_array (mem w) _ _ d0 zs).
    + rewrite Hba, Hadd in Hd. injection Hd as <-.
      apply (view_draft_insert_ne _ _ e);
        [exact Hedit|by apply not_eq_sym|by apply not_eq_sym].
  - discriminate.
Qed.

Lemma drafts_never_share_witness :
  let w := perform_all
             [SetConfig card_config;
              SetHass (Some (host (fun _ => Fulfilled)));
              Fire (RowClick "sched-1"); Fire (DayChipClick AddDraft 4)]
             (constructor host_store) in
  let w' := snd (listener (DayChipClick EditDraft 4) w) in
  edit_days w' = Some [1; 2; 3; 5] ∧
  add_days w' = Some [4] ∧
  slot AddDraft w' = slot AddDraft w ∧
  is_Some (view_draft (mem w) (slot AddDraft w)) ∧
  view_draft (mem w') (slot AddDraft w') = view_draft (mem w) (slot AddDraft w).
Proof.
  cbv zeta. split; [vm_compute; reflexivity|].
  split; [vm_compute; reflexivity|].
  apply (drafts_never_share host_store _ (DayChipClick EditDraft 4) EditDraft).
  reflexivity.
Defined.

(** ** Labels *)

Lemma day_token_weekday d :
  weekday d →
  (d = 1 ∧ day_token d = "Mon") ∨ (d = 2 ∧ day_token d = "Tue") ∨
  (d = 3 ∧ day_token d = "Wed") ∨ (d = 4 ∧ day_token d = "Thu") ∨
  (d = 5 ∧ day_token d = "Fri") ∨ (d = 6 ∧ day_token d = "Sat") ∨
  (d = 7 ∧ day_token d = "Sun").
Proof.
  unfold weekday. intros Hd.
  assert (d = 1 ∨ d = 2 ∨ d = 3 ∨ d = 4 ∨ d = 5 ∨ d = 6 ∨ d = 7) as Hc by lia.
  repeat (destruct Hc as [-> | Hc]); [tauto .. | subst; tauto].
Qed.

Lemma day_token_other d : ¬ weekday d → day_token d = numeral d.
Proof.
  unfold weekday, day_token, names. intros Hd.
  rewrite (proj1 (not_elem_of_list_to_map _ d)); [reflexivity|].
  cbn. rewrite !elem_of_cons, elem_of_nil. lia.
Qed.

Lemma append_empty_r (s : string) : (s ++ "")%string = s.
Proof.
  induction s as [|c s IH]; [reflexivity|].
  change (String c (s ++ "")%string = String c s). congruence.
Qed.

Lemma length_append_string (s t : string) :
  String.length (s ++ t)%string = (String.length s + String.length t)%nat.
Proof.
  induction s as [|c s IH]; [reflexivity|].
  change (S (String.length (s ++ t)%string) =
          S (String.length s + String.length t)). congruence.
Qed.

Lemma concat_cons t pieces :
  String.concat " " (t :: pieces) = (t ++ joined_rest pieces)%string.
Proof. destruct pieces; cbn; [by rewrite append_empty_r | reflexivity]. Qed.

Lemma day_token_prefix x y (A B : string) :
  weekday x → weekday y →
  (day_token x ++ A)%string = (day_token y ++ B)%string →
  x = y ∧ A = B.
Proof.
  intros Hx Hy.
  destruct (day_token_weekday x Hx)
    as [[-> ->]|[[-> ->]|[[-> ->]|[[-> ->]|[[-> ->]|[[-> ->]|[-> ->]]]]]]];
  destruct (day_token_weekday y Hy)
    as [[-> ->]|[[-> ->]|[[-> ->]|[[-> ->]|[[-> ->]|[[-> ->]|[-> ->]]]]]]];
  intros H; vm_compute in H; first [discriminate | by injection H as ->].
Qed.

Lemma joined_rest_weekdays_length days :
  Forall weekday days →
  String.length (joined_rest (map day_token days)) = (4 * length days)%nat.
Proof.
  induction 1 as [|d r Hd _ IH]; [reflexivity|].
  change (joined_rest (map day_token (d :: r)))
    with (" " ++ String.concat " " (day_token d :: map day_token r))%string.
  rewrite concat_cons, !length_append_string, IH.
  destruct (day_token_weekday d Hd)
    as [[_ ->]|[[_ ->]|[[_ ->]|[[_ ->]|[[_ ->]|[[_ ->]|[_ ->]]]]]]];
    cbn [String.length length]; lia.
Qed.

(** X16: the label of a non-empty list of weekday codes is made of
    three-letter names separated by single spaces: it has four characters
    per day, less one. *)
Theorem daysLabel_weekdays_length (days : list Z) :
  Forall weekday days →
  days ≠ [] →
  String.length (_daysLabel days) = (4 * length days - 1)%nat.
Proof.
  intros Hall Hne. destruct days as [|d r]; [done|].
  apply Forall_cons in Hall as [Hd Hr].
  unfold _daysLabel. cbn [map].
  rewrite concat_cons, length_append_string, joined_rest_weekdays_length
    by exact Hr.
  destruct (day_token_weekday d Hd)
    as [[_ ->]|[[_ ->]|[[_ ->]|[[_ ->]|[[_ ->]|[[_ ->]|[_ ->]]]]]]];
    cbn [String.length length]; lia.
Qed.

Lemma daysLabel_weekdays_length_witness :
  _daysLabel [1; 3; 7] = "Mon Wed Sun" ∧
  String.length (_daysLabel [1; 3; 7]) = (4 * length [1; 3; 7] - 1)%nat.
Proof.
  split; [vm_compute; reflexivity|].
  apply (daysLabel_weekdays_length [1; 3; 7]).
  - repeat constructor; unfold weekday; lia.
  - discriminate.
Defined.

Lemma inj_map_tokens xr yr :
  joined_rest (map day_token xr) = joined_rest (map day_token yr) →
  (String.concat " " (map day_token xr) = String.concat " " (map day_token yr) →
   xr = yr) →
  xr = yr.
Proof.
  intros H Hc.
  destruct xr as [|x xr], yr as [|y yr]; try reflexivity;
    cbn [map joined_rest] in H; vm_compute in H; try discriminate.
  apply Hc. cbn [map]. by injection H.
Qed.

(** X17: on lists of weekday codes the label tells the days apart: two
    lists with the same label are the same list. *)
Theorem daysLabel_weekdays_injective (xs ys : list Z) :
  Forall weekday xs →
  Forall weekday ys →
  _daysLabel xs = _daysLabel ys →
  xs = ys.
Proof.
  unfold _daysLabel. intros Hxs. revert ys.
  induction Hxs as [|x xr Hx Hxr IH]; intros ys Hys.
  - destruct Hys as [|y yr Hy _]; [reflexivity|].
    cbn [map]. rewrite concat_cons. intros H. exfalso.
    destruct (day_token_weekday y Hy)
      as [[_ E]|[[_ E]|[[_ E]|[[_ E]|[[_ E]|[[_ E]|[_ E]]]]]]];
      rewrite E in H; vm_compute in H; discriminate.
  - destruct Hys as [|y yr Hy Hyr].
    + cbn [map]. rewrite concat_cons. intros H. exfalso.
      destruct (day_token_weekday x Hx)
        as [[_ E]|[[_ E]|[[_ E]|[[_ E]|[[_ E]|[[_ E]|[_ E]]]]]]];
        rewrite E in H; vm_compute in H; discriminate.
    + cbn [map]. rewrite !concat_cons. intros H.
      apply day_token_prefix in H as [-> Hrest]; [|done|done].
      f_equal. apply inj_map_tokens in Hrest; [exact Hrest|].
      intros Hc. by apply IH.
Qed.

Lemma daysLabel_weekdays_injective_witness :
  _daysLabel [6; 7] = "Sat Sun" ∧ [6; 7] = [6; 7].
Proof.
  split; [vm_compute; reflexivity|].
  apply (daysLabel_weekdays_injective [6; 7] [6; 7]).
  - repeat constructor; unfold weekday; lia.
  - repeat constructor; unfold weekday; lia.
  - vm_compute. reflexivity.
Defined.

(** X18: a code that is no weekday is not dropped and raises nothing:
    it is printed as its numeral, in place.  This is stated for the
    integers a JavaScript number holds exactly and prints digit by digit,
    those below 2^53 in absolute value. *)
Theorem daysLabel_unknown_codes (days : list Z) :
  Forall (λ d, ¬ weekday d ∧ safe_integer d) days →
  _daysLabel days = String.concat " " (map numeral days).
Proof.
  intros Hall. unfold _daysLabel. f_equal.
  induction Hall as [|d r [Hd _] _ IH]; [reflexivity|].
  cbn [map]. by rewrite day_token_other, IH.
Qed.

Lemma daysLabel_unknown_codes_witness :
  _daysLabel [0; 8; -2] = "0 8 -2".
Proof.
  rewrite (daysLabel_unknown_codes [0; 8; -2]).
  - vm_compute. reflexivity.
  - repeat constructor; unfold weekday, safe_integer; lia.
Defined.

(** ** Configuration *)

(** X19: [setConfig] refuses a missing configuration and a configuration
    whose entity is missing or empty: it throws and leaves the card, with
    the configuration it had, as it was. *)
Theorem setConfig_needs_an_entity (w : World) (config : option CardConfig) :
  (config = None ∨
   ∃ c, config = Some c ∧ (cfg_entity c = None ∨ cfg_entity c = Some "")) →
  setConfig config w = (Throw, w).
Proof.
  intros [->|(c & -> & [He|He])]; [reflexivity| |];
    unfold setConfig; by rewrite He.
Qed.

Lemma setConfig_needs_an_entity_witness :
  let w := installed (fun _ => Fulfilled) in
  setConfig (Some (mkCardConfig (Some "") (Some "other") None None None)) w =
  (Throw, w).
Proof.
  cbv zeta. apply setConfig_needs_an_entity. right. eexists. split;
    [reflexivity|]. right. reflexivity.
Defined.

Lemma setConfig_accepts w c e :
  truthy_id (cfg_entity c) = Some e →
  setConfig (Some c) w = _render (configured c e w).
Proof. intros He. unfold setConfig. by rewrite He. Qed.

(** X20: a configuration with a non-empty entity is taken whatever the
    card was doing: it is written, with the defaults for the keys it
    leaves out, before [_render] is called, and [setConfig] ends as that
    [_render] ends.  It decides where the next operation goes: on a
    connected card an operation whose preconditions hold issues its one
    call to the configured domain and service, or to the default ones;
    the drafts, the selection and the calls issued before are kept. *)
Theorem setConfig_directs_the_calls
    (w : World) (c : CardConfig) (e : string) (hass : Hass) (op : Operation) :
  cfg_entity c = Some e →
  e ≠ "" →
  _hass (card w) = Some hass →
  ready op w →
  let w1 := snd (setConfig (Some c) w) in
  setConfig (Some c) w = _render (configured c e w) ∧
  _config (card w1) =
    Some (mkConfig e (default "enphase_envoy_cloud_control" (cfg_domain c))
            (default "add_schedule" (cfg_add_service c))
            (default "update_schedule" (cfg_update_service c))
            (default "delete_schedule" (cfg_delete_service c))) ∧
  snapshot w1 = snapshot w ∧
  ∃ data,
    calls (snd (handler op w1)) =
    calls w ++
    [mkCall (default "enphase_envoy_cloud_control" (cfg_domain c))
            (service_of op c) data].
Proof.
  intros He Hne Hh Hr. cbv zeta.
  assert (truthy_id (cfg_entity c) = Some e) as Ht
    by (rewrite He; by apply truthy_id_intro).
  pose proof (setConfig_accepts w c e Ht) as Hrun.
  split; [exact Hrun|]. rewrite Hrun.
  set (w1 := snd (_render (configured c e w))).
  assert (card w1 = card (configured c e w)) as Hcard by apply _render_card.
  assert (mem w1 = mem w) as Hmem by apply (_render_mem (configured c e w)).
  assert (calls w1 = calls w) as Hcalls
    by apply (_render_calls (configured c e w)).
  unfold configured in Hcard. cbn [card] in Hcard.
  split; [by rewrite Hcard|].
  split; [unfold snapshot; by rewrite Hcard, Hmem|].
  assert (ready op w1) as Hr1.
  { destruct op; simpl in Hr |- *; rewrite ?Hcard; cbn [_state];
      [destruct Hr as [Hv Hs]; split; [|exact Hs] | exact Hr |];
      by rewrite (_validate_mem w _ w1). }
  destruct op; simpl in Hr1 |- *.
  - destruct Hr1 as [Hv [sid Hs]].
    destruct (_validate_answer _ _ _ Hv) as [_ [d Hd]].
    destruct (_handleSave_ready w1 sid d Hv Hs Hd) as [-> _].
    unfold dispatched, issued. cbn. rewrite Hcard, Hcalls. cbn.
    rewrite Hh. by eexists.
  - destruct Hr1 as [sid Hs].
    destruct (_handleDelete_ready w1 sid Hs) as [-> _].
    unfold dispatched, issued. cbn. rewrite Hcard, Hcalls. cbn.
    rewrite Hh. by eexists.
  - destruct (_validate_answer _ _ _ Hr1) as [_ [d Hd]].
    destruct (_handleAdd_ready w1 d Hr1 Hd) as [-> _].
    unfold dispatched, issued. cbn. rewrite Hcard, Hcalls. cbn.
    rewrite Hh. by eexists.
Qed.

Lemma setConfig_directs_the_calls_witness :
  let w := night_world (Some (host (fun _ => Fulfilled))) in
  let w1 := snd (setConfig (Some custom_config) w) in
  fst (setConfig (Some custom_config) w) = Normal tt ∧
  snapshot w1 = snapshot w ∧
  ∃ data,
    calls (snd (handler Add w1)) =
    calls w ++ [mkCall "enphase_test" "create_schedule" data].
Proof.
  cbv zeta.
  destruct (setConfig_directs_the_calls
              (night_world (Some (host (fun _ => Fulfilled)))) custom_config
              "sensor.enphase_schedules_summary" (host (fun _ => Fulfilled))
              Add) as (Hrun & _ & Hrest).
  - reflexivity.
  - discriminate.
  - reflexivity.
  - vm_compute. reflexivity.
  - split; [|exact Hrest]. rewrite Hrun. vm_compute. reflexivity.
Defined.

(** ** A new card, and the actions that stay local *)

(** The four references of a new card are distinct and new. *)
Lemma constructor_layout store :
  ∃ l1 l2 l3 l4,
    constructor store =
      mkWorld (mkCard None None (mkState None l2 l4 ""))
        (<[l4 := ODraft (mkDraft "cfg" "00:00" "00:00" (of_Z 0) l3)]>
           (<[l3 := OArray []]>
              (<[l2 := ODraft (mkDraft "cfg" "00:00" "00:00" (of_Z 0) l1)]>
                 (<[l1 := OArray []]> store)))) [] None ∧
    l2 ≠ l1 ∧ l3 ≠ l1 ∧ l3 ≠ l2 ∧ l4 ≠ l1 ∧ l4 ≠ l2 ∧ l4 ≠ l3 ∧
    ∀ l, is_Some (store !! l) → l1 ≠ l ∧ l2 ≠ l ∧ l3 ≠ l ∧ l4 ≠ l.
Proof.
  destruct (constructor_shape store) as (l1 & l2 & l3 & l4 & Hc).
  cbv zeta in Hc. destruct Hc as (Hw & E1 & E2 & E3 & E4).
  exists l1, l2, l3, l4. split; [exact Hw|].
  assert (l2 ≠ l1) as N21
    by (rewrite E2; apply fresh_ne; rewrite lookup_insert_eq; eauto).
  assert (l3 ≠ l2) as N32
    by (rewrite E3; apply fresh_ne; rewrite lookup_insert_eq; eauto).
  assert (l3 ≠ l1) as N31.
  { rewrite E3. apply fresh_ne.
    rewrite lookup_insert_ne, lookup_insert_eq by done. eauto. }
  assert (l4 ≠ l3) as N43
    by (rewrite E4; apply fresh_ne; rewrite lookup_insert_eq; eauto).
  assert (l4 ≠ l2) as N42.
  { rewrite E4. apply fresh_ne.
    rewrite lookup_insert_ne, lookup_insert_eq by done. eauto. }
  assert (l4 ≠ l1) as N41.
  { rewrite E4. apply fresh_ne.
    rewrite !lookup_insert_ne, lookup_insert_eq by done. eauto. }
  repeat (split; [done|]).
  intros l Hl.
  assert (l1 ≠ l) as M1 by (rewrite E1; by apply fresh_ne).
  assert (l2 ≠ l) as M2.
  { rewrite E2. apply fresh_ne. by rewrite lookup_insert_ne. }
  assert (l3 ≠ l) as M3.
  { rewrite E3. apply fresh_ne. by rewrite !lookup_insert_ne. }
  assert (l4 ≠ l) as M4.
  { rewrite E4. apply fresh_ne. by rewrite !lookup_insert_ne. }
  done.
Qed.

(** X21: over any store, a new card shows two empty drafts of type cfg
    from 00:00 to 00:00 at limit 0, no selection and no error; it has
    issued no call, is neither configured nor connected, and keeps every
    object of the store it was built over. *)
Theorem constructor_starts_empty (store : gmap loc obj) :
  let w := constructor store in
  snapshot w = mkSnapshot (Some empty_view) (Some empty_view) None "" ∧
  calls w = [] ∧
  _config (card w) = None ∧
  _hass (card w) = None ∧
  ∀ l o, store !! l = Some o → mem w !! l = Some o.
Proof.
  cbv zeta.
  destruct (constructor_layout store)
    as (l1 & l2 & l3 & l4 & -> & N21 & N31 & N32 & N41 & N42 & N43 & Hold).
  split; [|repeat split].
  - unfold snapshot, view_draft. cbn.
    rewrite lookup_insert_eq.
    rewrite (lookup_insert_ne _ l4 l2), (lookup_insert_ne _ l3 l2) by done.
    rewrite lookup_insert_eq. cbn.
    rewrite (lookup_insert_ne _ l4 l3), lookup_insert_eq by done.
    rewrite (lookup_insert_ne _ l4 l1), (lookup_insert_ne _ l3 l1),
      (lookup_insert_ne _ l2 l1), lookup_insert_eq by done.
    reflexivity.
  - intros l o Hl. cbn.
    destruct (Hold l (ex_intro _ o Hl)) as (M1 & M2 & M3 & M4).
    by rewrite !lookup_insert_ne by done.
Qed.

Lemma assign_calls w l f : calls (snd (assign l f w)) = calls w.
Proof.
  unfold assign. run. by destruct (mem w !! l) as [[| d |]|].
Qed.

Lemma _toggleDay_calls w l day : calls (snd (_toggleDay l day w)) = calls w.
Proof.
  destruct (mem w !! l) as [[| d |]|] eqn:Hd;
    try (unfold _toggleDay; run; by rewrite Hd).
  destruct (mem w !! days d) as [[xs| |]|] eqn:Hxs;
    try (unfold _toggleDay; run; rewrite Hd; cbn; by rewrite Hxs).
  by rewrite (_toggleDay_run w _ d xs Hd Hxs).
Qed.

Lemma _onSelectSchedule_calls w id :
  calls (snd (_onSelectSchedule id w)) = calls w.
Proof.
  destruct (find_schedule (mem w) id (published w)) as [s|] eqn:Hf.
  - destruct (mem w !! Sched.days s) as [[xs| |]|] eqn:Hd.
    + by rewrite (_onSelectSchedule_selected w id s xs Hf Hd), _render_calls.
    + rewrite (select_shape_throw w id s Hf); [done|]. congruence.
    + rewrite (select_shape_throw w id s Hf); [done|]. congruence.
    + rewrite (select_shape_throw w id s Hf); [done|]. congruence.
  - by rewrite (_onSelectSchedule_missing w id Hf).
Qed.

(** X22: only the three buttons contact the host: configuring,
    connecting, selecting a row, changing a field and clicking a day chip
    never issue a call. *)
Theorem only_buttons_issue_calls (a : Action) (w : World) :
  is_operation a = false →
  calls (snd (perform a w)) = calls w.
Proof.
  intros Hop. destruct a as [config|hass|ev]; simpl.
  - unfold setConfig. destruct config as [c|]; [|reflexivity].
    destruct (truthy_id (cfg_entity c)); [|reflexivity].
    match goal with
    | |- context [(?m ;; _render) w] =>
        destruct (then_render m w) as [-> | ->]
    end; by rewrite ?_render_calls.
  - unfold set_hass.
    match goal with
    | |- context [(?m ;; _render) w] =>
        destruct (then_render m w) as [-> | ->]
    end; by rewrite ?_render_calls.
  - unfold listener. unfold bind at 1. cbn [fst snd].
    destruct (shadowRoot w) as [b|]; [|reflexivity].
    destruct ev as [id|which v|which v|which v|which v|which day| | |];
      try discriminate; cbn [write]; try apply assign_calls.
    + apply _onSelectSchedule_calls.
    + destruct (then_render (_toggleDay (closed_over b which) day) w)
        as [-> | ->]; rewrite ?_render_calls; apply _toggleDay_calls.
Qed.

Lemma only_buttons_issue_calls_witness :
  let w := editing (fun _ => Fulfilled) in
  calls (snd (perform (Fire (DayChipClick EditDraft 2)) w)) = calls w.
Proof.
  cbv zeta. apply only_buttons_issue_calls. reflexivity.
Defined.
